(** * yaa-translate: the translation gateway of [app.py]

    A shallow embedding of the Flask application in [src/app.py]: the
    language table held by [TranslationService], the service methods
    [translate_text] and [get_supported_languages], and the two route
    handlers [translate] (POST /translate) and [supported_languages]
    (GET /languages).

    Python strings are carried as Rocq strings (the UTF-8 bytes of the
    text).  Dict objects keep their insertion order and are association
    lists; the object store that holds the service's dicts is a [gmap]
    from locations to objects. *)

From Stdlib Require Import ZArith Ascii String List.
From stdpp Require Import base option gmap strings list fin_maps.

Set Warnings "-register-all".

Local Open Scope string_scope.
Local Open Scope list_scope.

(** ** Values *)

(** What [request.json] hands to the handler, and what [jsonify] is given:
    JSON data after parsing.  The numeric value of a float plays no part in
    the handlers, so a float keeps the literal it was written with. *)
Inductive json :=
| JNull
| JBool (b : bool)
| JInt (n : Z)
| JFloat (lit : string)
| JStr (s : string)
| JArr (items : list json)
| JObj (fields : list (string * json)).

(** Objects in the store.  [language_map] is a [Dict[str, Dict[str, str]]];
    the dict built by [get_supported_languages] is a [Dict[str, str]]. *)
Inductive pyobj :=
| LangMap (entries : list (string * list (string * string)))
| NameMap (names : list (string * string)).

Definition loc := positive.

(** ** Exceptions *)

Inductive exc_class :=
| KeyError
| IndexError
| TypeError
| AttributeError
| ValueError
| RuntimeError
| OtherException (name : string)   (* any further subclass of Exception *)
| ExitSignal (name : string).      (* derives from BaseException only:
                                      KeyboardInterrupt, SystemExit, ... *)

(** An exception instance: its class and [str(e)]. *)
Record exn := Exn { exc_class_of : exc_class; exc_str : string }.

(** [isinstance(e, Exception)] *)
Definition is_Exception (e : exn) : bool :=
  match exc_class_of e with
  | ExitSignal _ => false
  | _ => true
  end.

Definition is_KeyError (e : exn) : bool :=
  match exc_class_of e with KeyError => true | _ => false end.

Definition is_ValueError (e : exn) : bool :=
  match exc_class_of e with ValueError => true | _ => false end.

Definition is_RuntimeError (e : exn) : bool :=
  match exc_class_of e with RuntimeError => true | _ => false end.

(** Errors raised by the interpreter or by a library rather than by a
    [raise] of [app.py]; their text is the interpreter's. *)
Inductive fault :=
| NotIterable (ty : string)      (* [key in data], [data] of type [ty]:
                                    None, a bool or a number *)
| BadSubscript (ty : string)     (* [data['text']], [data] not a dict *)
| NoLowerAttribute (ty : string) (* [v.lower()], [v] not a str *)
| MissingKey (k : string)        (* [d[k]] with [k] absent *)
| OutOfRange.                    (* [translations[0]] on an empty sequence *)

Definition fault_class (f : fault) : exc_class :=
  match f with
  | NotIterable _ => TypeError
  | BadSubscript _ => TypeError
  | NoLowerAttribute _ => AttributeError
  | MissingKey _ => KeyError
  | OutOfRange => IndexError
  end.

(** [type(v).__name__] *)
Definition type_name (v : json) : string :=
  match v with
  | JNull => "NoneType"
  | JBool _ => "bool"
  | JInt _ => "int"
  | JFloat _ => "float"
  | JStr _ => "str"
  | JArr _ => "list"
  | JObj _ => "dict"
  end.

(** ** The Provider *)

(** The part of [google.cloud.translate_v3] that [app.py] touches: the
    keyword arguments of [client.translate_text] and the response it reads. *)
Module translate_v3.

Record TranslateTextRequest := {
  contents : list json;
  target_language_code : string;
  source_language_code : string;
  parent : string;
  mime_type : string
}.

Record Translation := { translated_text : string }.

Record TranslateTextResponse := { translations : list Translation }.

End translate_v3.

Abbreviation ProviderRequest := translate_v3.TranslateTextRequest.

(** ** The world: object store and the log of outbound calls *)

Record World := {
  store : gmap loc pyobj;
  calls : list ProviderRequest   (* most recent first *)
}.

Definition set_store (h : gmap loc pyobj) (w : World) : World :=
  {| store := h; calls := calls w |}.

Definition log_call (r : ProviderRequest) (w : World) : World :=
  {| store := store w; calls := r :: calls w |}.

(** ** Computations *)

Inductive Result (A : Type) :=
| Ok (a : A)
| Raise (e : exn).
Arguments Ok {A} a.
Arguments Raise {A} e.

(** A computation runs in a world and ends by returning or raising, in a
    new world.  [None] is a store that is not well typed for the access
    made (a dangling location, or an object of the wrong kind); Python has
    no such state. *)
Definition M (A : Type) : Type := World → option (Result A * World).

Definition ret {A} (a : A) : M A := λ w, Some (Ok a, w).

Definition raise {A} (e : exn) : M A := λ w, Some (Raise e, w).

Definition bind {A B} (m : M A) (k : A → M B) : M B :=
  λ w, match m w with
       | Some (Ok a, w') => k a w'
       | Some (Raise e, w') => Some (Raise e, w')
       | None => None
       end.

(** [try: body except C1: h1 except C2: h2 ...]: the first clause whose
    class matches handles the exception; without one the exception goes on.
    Effects of [body] made before the exception stay. *)
Fixpoint select_clause {A} (clauses : list ((exn → bool) * (exn → M A)))
    (e : exn) : option (M A) :=
  match clauses with
  | [] => None
  | (catches, handler) :: rest =>
      if catches e then Some (handler e) else select_clause rest e
  end.

Definition try_except {A} (body : M A)
    (clauses : list ((exn → bool) * (exn → M A))) : M A :=
  λ w, match body w with
       | Some (Raise e, w') =>
           match select_clause clauses e with
           | Some h => h w'
           | None => Some (Raise e, w')
           end
       | r => r
       end.

Global Instance M_ret : MRet M := @ret.
Global Instance M_bind : MBind M := λ A B k m, bind m k.

(** ** Dicts, strings *)

Fixpoint dict_get {V} (d : list (string * V)) (k : string) : option V :=
  match d with
  | [] => None
  | (k', v) :: d' => if String.eqb k k' then Some v else dict_get d' k
  end.

Definition dict_has {V} (d : list (string * V)) (k : string) : bool :=
  match dict_get d k with Some _ => true | None => false end.

Definition dict_keys {V} (d : list (string * V)) : list string := map fst d.

Fixpoint has_prefix (p s : string) : bool :=
  match p, s with
  | EmptyString, _ => true
  | String a p', String b s' => if Ascii.eqb a b then has_prefix p' s' else false
  | String _ _, EmptyString => false
  end.

(** [p in s] for two strs: [p] occurs in [s] as a contiguous run. *)
Fixpoint is_substring (p s : string) : bool :=
  if has_prefix p s then true
  else match s with
       | EmptyString => false
       | String _ s' => is_substring p s'
       end.

Definition is_str_equal (k : string) (v : json) : bool :=
  match v with
  | JStr s => String.eqb k s
  | _ => false
  end.

(** ASCII case mapping, the restriction of [str.lower] to ASCII text. *)
Definition ascii_lower_char (c : ascii) : ascii :=
  let n := nat_of_ascii c in
  if (65 <=? n)%nat && (n <=? 90)%nat then ascii_of_nat (n + 32) else c.

Fixpoint ascii_lower (s : string) : string :=
  match s with
  | EmptyString => EmptyString
  | String c s' => String (ascii_lower_char c) (ascii_lower s')
  end.

Fixpoint is_ascii (s : string) : bool :=
  match s with
  | EmptyString => true
  | String c s' => (nat_of_ascii c <? 128)%nat && is_ascii s'
  end.

(** [d[k] = v] on a dict: the value of an existing key is replaced in
    place, a new key goes to the end. *)
Fixpoint dict_set {V} (d : list (string * V)) (k : string) (v : V)
    : list (string * V) :=
  match d with
  | [] => [(k, v)]
  | (k', v') :: d' =>
      if String.eqb k k' then (k', v) :: d' else (k', v') :: dict_set d' k v
  end.

(** ** Store access *)

(** A new object, at a location the store does not use yet. *)
Definition alloc (o : pyobj) : M loc :=
  λ w, let l := fresh (dom (store w)) in
       Some (Ok l, set_store (<[l := o]> (store w)) w).

Definition read_LangMap (l : loc)
    : M (list (string * list (string * string))) :=
  λ w, match store w !! l with
       | Some (LangMap m) => Some (Ok m, w)
       | _ => None
       end.

Definition read_NameMap (l : loc) : M (list (string * string)) :=
  λ w, match store w !! l with
       | Some (NameMap m) => Some (Ok m, w)
       | _ => None
       end.

(** ** HTTP responses *)

Record HttpResponse := { status : Z; body : json }.

(** [jsonify(v)]: a response with the default status, whose payload is
    [v]; the order in which the serializer writes the keys of an object is
    not part of the payload. *)
Definition jsonify (v : json) : HttpResponse := {| status := 200; body := v |}.

(** [return response, code] *)
Definition with_status (r : HttpResponse) (code : Z) : HttpResponse :=
  {| status := code; body := body r |}.

Definition names_json (names : list (string * string)) : json :=
  JObj (map (λ kv, (fst kv, JStr (snd kv))) names).

(** ** The service *)

Record TranslationService := {
  language_map : loc;
  project_id : string;
  parent : string
}.

(** The dict literal of [__init__], lines 13-30. *)
Definition language_table : list (string * list (string * string)) :=
  [ ("english", [("code", "en-GB"); ("full_name", "English")]);
    ("twi",     [("code", "ak");    ("full_name", "Twi (Akan)")]);
    ("ga",      [("code", "gaa");   ("full_name", "Ga")]);
    ("ewe",     [("code", "ee");    ("full_name", "Ewe")]) ].

(** [not s] for a str or None, as in [if not self.project_id]. *)
Definition falsy (s : option string) : bool :=
  match s with
  | None => true
  | Some EmptyString => true
  | Some _ => false
  end.

(** [TranslationService.__init__], lines 12-37.  [PROJECT_ID] is what
    [os.getenv] returns; [TranslationServiceClient] is how the call
    [translate_v3.TranslationServiceClient()] of line 36 ends: the library
    builds the client or raises, and sends no translation request. *)
Definition __init__ (TranslationServiceClient : Result unit)
    (PROJECT_ID : option string) : M TranslationService :=
  lm ← alloc (LangMap language_table);
  if falsy PROJECT_ID
  then raise (Exn ValueError "PROJECT_ID environment variable must be set")
  else
    match TranslationServiceClient with
    | Raise e => raise e
    | Ok _ =>
        let pid := default "" PROJECT_ID in
        mret {| language_map := lm;
                project_id := pid;
                parent := "projects/" +:+ pid +:+ "/locations/global" |}
    end.

(** The requests of the HTTP surface. *)
Inductive Request :=
| PostTranslate (data : json)
| GetLanguages.

Section Gateway.

(** What the file takes from outside: [str.lower], the wording of the
    interpreter's own errors, and the Provider.  The Provider answers a
    call by a response or by raising; its answer may depend on the calls
    made before. *)
Variable lower : string → string.
Variable wording : fault → string.
Variable provider :
  list ProviderRequest → ProviderRequest → Result translate_v3.TranslateTextResponse.

(** On ASCII text [str.lower] maps A-Z to a-z and nothing else. *)
Definition lower_on_ascii : Prop :=
  ∀ s, is_ascii s = true → lower s = ascii_lower s.

Definition fault_exn (f : fault) : exn := Exn (fault_class f) (wording f).

(** [d[k]] *)
Definition getitem {V} (d : list (string * V)) (k : string) : M V :=
  match dict_get d k with
  | Some v => mret v
  | None => raise (fault_exn (MissingKey k))
  end.

(** [self.client.translate_text(...)]: one outbound call, logged. *)
Definition client_translate_text (req : ProviderRequest)
    : M translate_v3.TranslateTextResponse :=
  λ w, Some (provider (calls w) req, log_call req w).

(** [seq[0]] *)
Definition first_item {A} (l : list A) : M A :=
  match l with
  | x :: _ => mret x
  | [] => raise (fault_exn OutOfRange)
  end.

(** [self.language_map[lang][field]] *)
Definition language_field (self : TranslationService) (lang field : string)
    : M string :=
  m ← read_LangMap (language_map self);
  details ← getitem m lang;
  getitem details field.

(** [TranslationService.translate_text], lines 39-73.  [text] is whatever
    the body holds under "text": the handler passes it on unchecked. *)
Definition translate_text (self : TranslationService)
    (text : json) (source_lang target_lang : string) : M json :=
  codes ← try_except
    (source_code ← language_field self source_lang "code";
     target_code ← language_field self target_lang "code";
     mret (source_code, target_code))
    [ (is_KeyError, λ _, raise (Exn ValueError "Invalid language names")) ];
  try_except
    (response ← client_translate_text
       {| translate_v3.contents := [text];
          translate_v3.target_language_code := snd codes;
          translate_v3.source_language_code := fst codes;
          translate_v3.parent := parent self;
          translate_v3.mime_type := "text/plain" |};
     first ← first_item (translate_v3.translations response);
     source_language ← language_field self source_lang "full_name";
     target_language ← language_field self target_lang "full_name";
     mret (JObj [ ("original_text", text);
                  ("translated_text", JStr (translate_v3.translated_text first));
                  ("source_language", JStr source_language);
                  ("target_language", JStr target_language) ]))
    [ (is_Exception,
       λ e, raise (Exn RuntimeError ("Translation error: " +:+ exc_str e))) ].

(** The dict comprehension of line 82, over [items] in order. *)
Fixpoint full_names (items : list (string * list (string * string)))
    (acc : list (string * string)) : M (list (string * string)) :=
  match items with
  | [] => mret acc
  | (lang, details) :: rest =>
      name ← getitem details "full_name";
      full_names rest (dict_set acc lang name)
  end.

(** [TranslationService.get_supported_languages], lines 75-82: the new
    dict is an object of its own. *)
Definition get_supported_languages (self : TranslationService) : M loc :=
  m ← read_LangMap (language_map self);
  names ← full_names m [];
  alloc (NameMap names).

(** ** The route handlers *)

(** [key in data] *)
Definition contains (data : json) (key : string) : M bool :=
  match data with
  | JObj d => mret (dict_has d key)
  | JArr l => mret (existsb (is_str_equal key) l)
  | JStr s => mret (is_substring key s)
  | JNull | JBool _ | JInt _ | JFloat _ =>
      raise (fault_exn (NotIterable (type_name data)))
  end.

(** [all(key in data for key in keys)]: stops at the first key that is
    absent. *)
Fixpoint all_in (data : json) (keys : list string) : M bool :=
  match keys with
  | [] => mret true
  | key :: rest =>
      b ← contains data key;
      if b : bool then all_in data rest else mret false
  end.

(** [data[key]] *)
Definition subscript (data : json) (key : string) : M json :=
  match data with
  | JObj d => getitem d key
  | _ => raise (fault_exn (BadSubscript (type_name data)))
  end.

(** [v.lower()] *)
Definition call_lower (v : json) : M string :=
  match v with
  | JStr s => mret (lower s)
  | _ => raise (fault_exn (NoLowerAttribute (type_name v)))
  end.

Definition missing_parameters : json :=
  JObj [("error", JStr "Missing required parameters: text, source_lang, target_lang")].

Definition error_body (e : exn) : json := JObj [("error", JStr (exc_str e))].

(** [translate], lines 86-110; [data] is [request.json]. *)
Definition translate (self : TranslationService) (data : json)
    : M HttpResponse :=
  present ← all_in data ["text"; "source_lang"; "target_lang"];
  if negb present : bool
  then mret (with_status (jsonify missing_parameters) 400)
  else
    try_except
      (text ← subscript data "text";
       v ← subscript data "source_lang";
       source_lang ← call_lower v;
       v' ← subscript data "target_lang";
       target_lang ← call_lower v';
       translation_result ← translate_text self text source_lang target_lang;
       mret (jsonify translation_result))
      [ (is_ValueError, λ ve, mret (with_status (jsonify (error_body ve)) 400));
        (is_RuntimeError, λ re, mret (with_status (jsonify (error_body re)) 500)) ].

(** [supported_languages], lines 112-117. *)
Definition supported_languages (self : TranslationService) : M HttpResponse :=
  l ← get_supported_languages self;
  names ← read_NameMap l;
  mret (jsonify (names_json names)).

Definition serve (self : TranslationService) (r : Request) : M HttpResponse :=
  match r with
  | PostTranslate data => translate self data
  | GetLanguages => supported_languages self
  end.

End Gateway.

(** The HTTP server: requests are served one after the other; a handler
    that raises gives that request an error outcome and the server goes on. *)
Fixpoint run (lower : string → string) (wording : fault → string)
    (provider : list ProviderRequest → ProviderRequest →
                Result translate_v3.TranslateTextResponse)
    (self : TranslationService) (reqs : list Request) (w : World)
    : option (list (Result HttpResponse) * World) :=
  match reqs with
  | [] => Some ([], w)
  | r :: rest =>
      match serve lower wording provider self r w with
      | Some (o, w') =>
          match run lower wording provider self rest w' with
          | Some (os, w'') => Some (o :: os, w'')
          | None => None
          end
      | None => None
      end
  end.

(** [translate] from its first line.  [request_json] is how evaluating
    [request.json] on line 91 ends: the parsed body, or the exception Flask
    raises there for a body that is not JSON. *)
Definition translate_route (lower : string → string) (wording : fault → string)
    (provider : list ProviderRequest → ProviderRequest →
                Result translate_v3.TranslateTextResponse)
    (self : TranslationService) (request_json : Result json)
    : M HttpResponse :=
  match request_json with
  | Ok data => translate lower wording provider self data
  | Raise e => raise e
  end.

(** An instance of what Flask raises on line 91 for a body that is not
    JSON, with werkzeug's default text. *)
Definition BadRequest : exn :=
  Exn (OtherException "BadRequest")
    "400 Bad Request: The browser (or proxy) sent a request that this server could not understand.".

(** ** Reading the table *)

(** The code and the display name that the lookups
    [language_map[lang]['code']] and [language_map[lang]['full_name']]
    give for a key of the table. *)
Definition resolve (lang : string) : option (string * string) :=
  match dict_get language_table lang with
  | Some details =>
      match dict_get details "code", dict_get details "full_name" with
      | Some code, Some name => Some (code, name)
      | _, _ => None
      end
  | None => None
  end.

(** The service's [language_map] is the table of [__init__]. *)
Definition registry_ok (self : TranslationService) (w : World) : Prop :=
  store w !! language_map self = Some (LangMap language_table).

(** The call [translate_text] makes for a text and two codes. *)
Definition provider_request (self : TranslationService) (text : json)
    (source_code target_code : string) : ProviderRequest :=
  {| translate_v3.contents := [text];
     translate_v3.target_language_code := target_code;
     translate_v3.source_language_code := source_code;
     translate_v3.parent := parent self;
     translate_v3.mime_type := "text/plain" |}.

(** The success payload of line 66. *)
Definition translation_result (text : json) (translated source_name target_name : string)
    : json :=
  JObj [ ("original_text", text);
         ("translated_text", JStr translated);
         ("source_language", JStr source_name);
         ("target_language", JStr target_name) ].

(** A body with the three keys, the two languages being strs. *)
Definition request_body (d : list (string * json)) (text : json)
    (source_lang target_lang : string) : Prop :=
  dict_get d "text" = Some text ∧
  dict_get d "source_lang" = Some (JStr source_lang) ∧
  dict_get d "target_lang" = Some (JStr target_lang).

(** The mapping GET /languages answers with: key to display name, in the
    order of the table. *)
Definition display_names : list (string * string) :=
  [ ("english", "English"); ("twi", "Twi (Akan)"); ("ga", "Ga"); ("ewe", "Ewe") ].

Definition languages_response : HttpResponse :=
  {| status := 200;
     body := JObj [ ("english", JStr "English"); ("twi", JStr "Twi (Akan)");
                    ("ga", JStr "Ga"); ("ewe", JStr "Ewe") ] |}.

(** ** Concrete instances *)

Module Demo.

(** CPython 3.12's wording. *)
Definition wording (f : fault) : string :=
  match f with
  | NotIterable ty => "argument of type '" +:+ ty +:+ "' is not iterable"
  | BadSubscript "list" => "list indices must be integers or slices, not str"
  | BadSubscript "str" => "string indices must be integers, not 'str'"
  | BadSubscript ty => "'" +:+ ty +:+ "' object is not subscriptable"
  | NoLowerAttribute ty => "'" +:+ ty +:+ "' object has no attribute 'lower'"
  | MissingKey k => "'" +:+ k +:+ "'"
  | OutOfRange => "list index out of range"
  end.

Definition ascii_upper_char (c : ascii) : ascii :=
  let n := nat_of_ascii c in
  if (97 <=? n)%nat && (n <=? 122)%nat then ascii_of_nat (n - 32) else c.

Fixpoint ascii_upper (s : string) : string :=
  match s with
  | EmptyString => EmptyString
  | String c s' => String (ascii_upper_char c) (ascii_upper s')
  end.

(** A stub Provider that echoes its input text in upper case. *)
Definition upper_stub (_ : list ProviderRequest) (req : ProviderRequest)
    : Result translate_v3.TranslateTextResponse :=
  match translate_v3.contents req with
  | [JStr s] =>
      Ok {| translate_v3.translations :=
              [ {| translate_v3.translated_text := ascii_upper s |} ] |}
  | _ => Raise (Exn TypeError "contents must be text")
  end.

(** A stub Provider that always fails. *)
Definition failing_stub (_ : list ProviderRequest) (_ : ProviderRequest)
    : Result translate_v3.TranslateTextResponse :=
  Raise (Exn (OtherException "ServiceUnavailable") "503 backend unavailable").

(** A stub Provider that answers with no translation at all. *)
Definition empty_stub (_ : list ProviderRequest) (_ : ProviderRequest)
    : Result translate_v3.TranslateTextResponse :=
  Ok {| translate_v3.translations := [] |}.

Definition empty_world : World := {| store := ∅; calls := [] |}.

(** The module-level [translation_service = TranslationService()], with
    PROJECT_ID=demo in the environment. *)
Definition started : option (Result TranslationService * World) :=
  __init__ (Ok tt) (Some "demo") empty_world.

Definition translation_service : TranslationService :=
  {| language_map := 1%positive;
     project_id := "demo";
     parent := "projects/demo/locations/global" |}.

Definition world : World :=
  {| store := {[ 1%positive := LangMap language_table ]}; calls := [] |}.

Definition hello_fields : list (string * json) :=
  [ ("text", JStr "hello");
    ("source_lang", JStr "english");
    ("target_lang", JStr "twi") ].

Definition hello : json := JObj hello_fields.

End Demo.


(** ** Counting requests *)

Definition is_post (r : Request) : bool :=
  match r with
  | PostTranslate _ => true
  | GetLanguages => false
  end.

Definition count_posts (reqs : list Request) : nat :=
  length (filter (λ r, is_post r = true) reqs).

(** A Provider call cut short by the operator. *)
Definition interrupted_stub (_ : list ProviderRequest) (_ : ProviderRequest)
    : Result translate_v3.TranslateTextResponse :=
  Raise (Exn (ExitSignal "KeyboardInterrupt") "").

(** [p] occurs in [s]: some text, then [p], then some text. *)
Definition occurs_in (p s : string) : Prop :=
  ∃ pre post, s = pre +:+ p +:+ post.

(** A service whose [language_map] object holds the entries [m]. *)
Definition table_in_store (self : TranslationService) (w : World)
    (m : list (string * list (string * string))) : Prop :=
  store w !! language_map self = Some (LangMap m).

(** [m[lang][field]] where both keys are there. *)
Definition table_field (m : list (string * list (string * string)))
    (lang field : string) : option string :=
  match dict_get m lang with
  | Some details => dict_get details field
  | None => None
  end.

(** A table with an entry that was given a code and no display name. *)
Module Partial.

Definition table : list (string * list (string * string)) :=
  [ ("english", [("code", "en-GB"); ("full_name", "English")]);
    ("fante",   [("code", "fat")]) ].

Definition world : World :=
  {| store := {[ 1%positive := LangMap table ]}; calls := [] |}.

End Partial.

(** * Properties *)

(** ** Running computations *)

Section Monad.

Context {A B : Type}.
Implicit Types (m : M A) (k : A → M B) (w : World).

Lemma run_bind_ok m k w a w' :
  m w = Some (Ok a, w') → (m ≫= k) w = k a w'.
Proof. intros H. unfold mbind, M_bind, bind. by rewrite H. Qed.

Lemma run_bind_raise m k w e w' :
  m w = Some (Raise e, w') → (m ≫= k) w = Some (Raise e, w').
Proof. intros H. unfold mbind, M_bind, bind. by rewrite H. Qed.

Lemma run_try_ok m (cl : list ((exn → bool) * (exn → M A))) w a w' :
  m w = Some (Ok a, w') → try_except m cl w = Some (Ok a, w').
Proof. intros H. unfold try_except. by rewrite H. Qed.

Lemma run_try_caught m (cl : list ((exn → bool) * (exn → M A))) w e w' h r :
  m w = Some (Raise e, w') → select_clause cl e = Some h → h w' = r →
  try_except m cl w = r.
Proof. intros H Hc <-. unfold try_except. by rewrite H, Hc. Qed.

Lemma run_try_uncaught m (cl : list ((exn → bool) * (exn → M A))) w e w' :
  m w = Some (Raise e, w') → select_clause cl e = None →
  try_except m cl w = Some (Raise e, w').
Proof. intros H Hc. unfold try_except. by rewrite H, Hc. Qed.

End Monad.

(** ** The table *)

(** Case analysis on a key: one of the four keys of the table, or none. *)
Ltac case_key lang :=
  destruct (String.eqb_spec lang "english") as [->|?];
  [|destruct (String.eqb_spec lang "twi") as [->|?];
    [|destruct (String.eqb_spec lang "ga") as [->|?];
      [|destruct (String.eqb_spec lang "ewe") as [->|?]]]].

Lemma resolve_cases lang :
  resolve lang =
    if String.eqb lang "english" then Some ("en-GB", "English")
    else if String.eqb lang "twi" then Some ("ak", "Twi (Akan)")
    else if String.eqb lang "ga" then Some ("gaa", "Ga")
    else if String.eqb lang "ewe" then Some ("ee", "Ewe")
    else None.
Proof.
  unfold resolve, language_table; simpl.
  repeat (destruct (String.eqb lang _); [reflexivity|]).
  reflexivity.
Qed.

Lemma resolve_None lang :
  resolve lang = None ↔ dict_get language_table lang = None.
Proof.
  unfold resolve, language_table; simpl.
  repeat (destruct (String.eqb lang _); [simpl; split; discriminate|]).
  done.
Qed.

Section Service.

Variable wording : fault → string.
Variable provider :
  list ProviderRequest → ProviderRequest → Result translate_v3.TranslateTextResponse.
Variable self : TranslationService.

Lemma language_field_code w lang :
  registry_ok self w →
  language_field wording self lang "code" w =
    match resolve lang with
    | Some (code, _) => Some (Ok code, w)
    | None => Some (Raise (fault_exn wording (MissingKey lang)), w)
    end.
Proof.
  intros Hok. unfold language_field.
  rewrite (run_bind_ok _ _ w language_table w) by (unfold read_LangMap; by rewrite Hok).
  unfold resolve, getitem, language_table; simpl.
  repeat (destruct (String.eqb lang _); [reflexivity|]).
  reflexivity.
Qed.

Lemma language_field_full_name w lang :
  registry_ok self w →
  language_field wording self lang "full_name" w =
    match resolve lang with
    | Some (_, name) => Some (Ok name, w)
    | None => Some (Raise (fault_exn wording (MissingKey lang)), w)
    end.
Proof.
  intros Hok. unfold language_field.
  rewrite (run_bind_ok _ _ w language_table w) by (unfold read_LangMap; by rewrite Hok).
  unfold resolve, getitem, language_table; simpl.
  repeat (destruct (String.eqb lang _); [reflexivity|]).
  reflexivity.
Qed.

Lemma registry_ok_log_call w req :
  registry_ok self w → registry_ok self (log_call req w).
Proof. done. Qed.

(** The first [try] of [translate_text]: both codes, or the one
    ValueError. *)
Lemma resolve_codes_run w source_lang target_lang :
  registry_ok self w →
  try_except
    (source_code ← language_field wording self source_lang "code";
     target_code ← language_field wording self target_lang "code";
     mret (source_code, target_code))
    [ (is_KeyError, λ _, raise (Exn ValueError "Invalid language names")) ] w =
  match resolve source_lang, resolve target_lang with
  | Some (sc, _), Some (tc, _) => Some (Ok (sc, tc), w)
  | _, _ => Some (Raise (Exn ValueError "Invalid language names"), w)
  end.
Proof.
  intros Hok.
  pose proof (language_field_code w source_lang Hok) as Hs.
  pose proof (language_field_code w target_lang Hok) as Ht.
  destruct (resolve source_lang) as [[sc sn]|].
  - destruct (resolve target_lang) as [[tc tn]|].
    + apply run_try_ok.
      rewrite (run_bind_ok _ _ _ _ _ Hs), (run_bind_ok _ _ _ _ _ Ht). done.
    + eapply run_try_caught.
      * rewrite (run_bind_ok _ _ _ _ _ Hs). cbv beta.
        by rewrite (run_bind_raise _ _ _ _ _ Ht).
      * done.
      * done.
  - transitivity (Some (@Raise (string * string)
                          (Exn ValueError "Invalid language names"), w));
      [|by destruct (resolve target_lang) as [[]|]].
    eapply run_try_caught.
    + by rewrite (run_bind_raise _ _ _ _ _ Hs).
    + done.
    + done.
Qed.

(** What [translate_text] does in a world whose table is in place. *)
Lemma translate_text_run w text source_lang target_lang :
  registry_ok self w →
  translate_text wording provider self text source_lang target_lang w =
  match resolve source_lang, resolve target_lang with
  | Some (sc, sn), Some (tc, tn) =>
      let req := provider_request self text sc tc in
      match provider (calls w) req with
      | Ok response =>
          match translate_v3.translations response with
          | first :: _ =>
              Some (Ok (translation_result text
                          (translate_v3.translated_text first) sn tn),
                    log_call req w)
          | [] =>
              Some (Raise (Exn RuntimeError
                             ("Translation error: " +:+ wording OutOfRange)),
                    log_call req w)
          end
      | Raise e =>
          if is_Exception e
          then Some (Raise (Exn RuntimeError ("Translation error: " +:+ exc_str e)),
                     log_call req w)
          else Some (Raise e, log_call req w)
      end
  | _, _ => Some (Raise (Exn ValueError "Invalid language names"), w)
  end.
Proof.
  intros Hok. unfold translate_text.
  pose proof (resolve_codes_run w source_lang target_lang Hok) as Hc.
  destruct (resolve source_lang) as [[sc sn]|] eqn:Hs;
    [destruct (resolve target_lang) as [[tc tn]|] eqn:Ht|];
    try (by apply run_bind_raise).
  rewrite (run_bind_ok _ _ _ _ _ Hc). simpl fst; simpl snd.
  fold (provider_request self text sc tc).
  set (req := provider_request self text sc tc).
  assert (Hok' : registry_ok self (log_call req w)) by done.
  pose proof (language_field_full_name (log_call req w) source_lang Hok') as Hsn.
  pose proof (language_field_full_name (log_call req w) target_lang Hok') as Htn.
  rewrite Hs in Hsn. rewrite Ht in Htn.
  destruct (provider (calls w) req) as [response|e] eqn:Hp.
  - assert (Hcall : client_translate_text provider req w
                    = Some (Ok response, log_call req w))
      by (unfold client_translate_text; by rewrite Hp).
    destruct (translate_v3.translations response) as [|first rest] eqn:Htr.
    + eapply run_try_caught.
      * rewrite (run_bind_ok _ _ _ _ _ Hcall). rewrite Htr.
        by apply run_bind_raise.
      * done.
      * done.
    + apply run_try_ok.
      rewrite (run_bind_ok _ _ _ _ _ Hcall). rewrite Htr.
      rewrite (run_bind_ok _ _ _ first (log_call req w)) by done.
      rewrite (run_bind_ok _ _ _ _ _ Hsn), (run_bind_ok _ _ _ _ _ Htn). done.
  - assert (Hcall : client_translate_text provider req w
                    = Some (Raise e, log_call req w))
      by (unfold client_translate_text; by rewrite Hp).
    destruct (is_Exception e) eqn:He.
    + eapply run_try_caught.
      * by apply run_bind_raise.
      * simpl. by rewrite He.
      * done.
    + eapply run_try_uncaught.
      * by apply run_bind_raise.
      * simpl. by rewrite He.
Qed.

End Service.

Section Handlers.

Variable lower : string → string.
Variable wording : fault → string.
Variable provider :
  list ProviderRequest → ProviderRequest → Result translate_v3.TranslateTextResponse.
Variable self : TranslationService.

(** The presence check on a dict looks at the three keys and nothing else. *)
Lemma all_in_dict d w :
  all_in wording (JObj d) ["text"; "source_lang"; "target_lang"] w =
  Some (Ok (dict_has d "text" && dict_has d "source_lang"
            && dict_has d "target_lang"), w).
Proof.
  unfold all_in, contains, mbind, M_bind, bind, mret, M_ret, ret.
  by destruct (dict_has d "text"), (dict_has d "source_lang"),
    (dict_has d "target_lang").
Qed.

Lemma request_body_has d text source_lang target_lang :
  request_body d text source_lang target_lang →
  dict_has d "text" = true ∧ dict_has d "source_lang" = true
  ∧ dict_has d "target_lang" = true.
Proof. intros (H1 & H2 & H3). unfold dict_has. by rewrite H1, H2, H3. Qed.

(** With the three keys present and both languages strs, the handler is
    the call of [translate_text] on the lower-cased keys under the two
    [except] clauses. *)
Lemma translate_body d text source_lang target_lang w :
  request_body d text source_lang target_lang →
  translate lower wording provider self (JObj d) w =
  try_except
    (translation_result ←
       translate_text wording provider self text
         (lower source_lang) (lower target_lang);
     mret (jsonify translation_result))
    [ (is_ValueError, λ ve, mret (with_status (jsonify (error_body ve)) 400));
      (is_RuntimeError, λ re, mret (with_status (jsonify (error_body re)) 500)) ]
    w.
Proof.
  intros Hb. destruct (request_body_has _ _ _ _ Hb) as (Ht & Hs & Hg).
  destruct Hb as (H1 & H2 & H3).
  unfold translate.
  rewrite (run_bind_ok _ _ _ _ _ (all_in_dict d w)).
  rewrite Ht, Hs, Hg. simpl negb. cbv iota.
  unfold try_except, subscript, getitem, call_lower.
  unfold mbind, M_bind, bind, mret, M_ret, ret.
  rewrite H1, H2, H3. reflexivity.
Qed.

(** The same, with [translate_text] run. *)
Lemma translate_run d text source_lang target_lang w :
  registry_ok self w →
  request_body d text source_lang target_lang →
  translate lower wording provider self (JObj d) w =
  match resolve (lower source_lang), resolve (lower target_lang) with
  | Some (sc, sn), Some (tc, tn) =>
      let req := provider_request self text sc tc in
      match provider (calls w) req with
      | Ok response =>
          match translate_v3.translations response with
          | first :: _ =>
              Some (Ok (jsonify (translation_result text
                                   (translate_v3.translated_text first) sn tn)),
                    log_call req w)
          | [] =>
              Some (Ok {| status := 500;
                          body := JObj [("error",
                            JStr ("Translation error: " +:+ wording OutOfRange))] |},
                    log_call req w)
          end
      | Raise e =>
          if is_Exception e
          then Some (Ok {| status := 500;
                           body := JObj [("error",
                             JStr ("Translation error: " +:+ exc_str e))] |},
                     log_call req w)
          else Some (Raise e, log_call req w)
      end
  | _, _ =>
      Some (Ok {| status := 400;
                  body := JObj [("error", JStr "Invalid language names")] |}, w)
  end.
Proof.
  intros Hok Hb. rewrite (translate_body _ _ _ _ _ Hb).
  pose proof (translate_text_run wording provider self w text
                (lower source_lang) (lower target_lang) Hok) as Hrun.
  unfold try_except, mbind, M_bind, bind. rewrite Hrun. clear Hrun.
  destruct (resolve (lower source_lang)) as [[sc sn]|]; [|done].
  destruct (resolve (lower target_lang)) as [[tc tn]|]; [|done].
  cbv zeta.
  destruct (provider (calls w) (provider_request self text sc tc)) as [response|e].
  - by destruct (translate_v3.translations response).
  - destruct e as [c msg]. by destruct c.
Qed.

(** A dict that lacks one of the three keys. *)
Lemma translate_key_absent d w :
  dict_has d "text" && dict_has d "source_lang" && dict_has d "target_lang"
    = false →
  translate lower wording provider self (JObj d) w =
  Some (Ok (with_status (jsonify missing_parameters) 400), w).
Proof.
  intros H. unfold translate.
  rewrite (run_bind_ok _ _ _ _ _ (all_in_dict d w)). by rewrite H.
Qed.

Lemma missing_parameters_absent d w :
  dict_get d "text" = None ∨ dict_get d "source_lang" = None
    ∨ dict_get d "target_lang" = None →
  translate lower wording provider self (JObj d) w =
  Some (Ok (with_status (jsonify missing_parameters) 400), w).
Proof.
  intros H. apply translate_key_absent. unfold dict_has.
  destruct H as [-> | [-> | ->]]; [done| |].
  - by destruct (dict_get d "text").
  - by destruct (dict_get d "text"), (dict_get d "source_lang").
Qed.

(** A dict with the three keys whose [source_lang] is not a str. *)
Lemma translate_source_not_str d text v v' w :
  dict_get d "text" = Some text →
  dict_get d "source_lang" = Some v →
  dict_get d "target_lang" = Some v' →
  (∀ s, v ≠ JStr s) →
  translate lower wording provider self (JObj d) w =
  Some (Raise (fault_exn wording (NoLowerAttribute (type_name v))), w).
Proof.
  intros H1 H2 H3 Hv. unfold translate.
  rewrite (run_bind_ok _ _ _ _ _ (all_in_dict d w)).
  unfold dict_has. rewrite H1, H2, H3. simpl negb. cbv iota.
  unfold try_except, subscript, getitem, call_lower.
  unfold mbind, M_bind, bind, mret, M_ret, ret.
  rewrite H1, H2.
  destruct v; try reflexivity. by destruct (Hv s).
Qed.

(** A dict with the three keys whose [target_lang] is not a str. *)
Lemma translate_target_not_str d text s v' w :
  dict_get d "text" = Some text →
  dict_get d "source_lang" = Some (JStr s) →
  dict_get d "target_lang" = Some v' →
  (∀ t, v' ≠ JStr t) →
  translate lower wording provider self (JObj d) w =
  Some (Raise (fault_exn wording (NoLowerAttribute (type_name v'))), w).
Proof.
  intros H1 H2 H3 Hv. unfold translate.
  rewrite (run_bind_ok _ _ _ _ _ (all_in_dict d w)).
  unfold dict_has. rewrite H1, H2, H3. simpl negb. cbv iota.
  unfold try_except, subscript, getitem, call_lower.
  unfold mbind, M_bind, bind, mret, M_ret, ret.
  rewrite H1, H2, H3.
  destruct v'; try reflexivity. by destruct (Hv s0).
Qed.

(** A body that is not a dict: the presence check raises, or answers by
    membership in a list or by substring in a str; after that the first
    subscript raises. *)
Lemma translate_not_dict data w :
  (∀ d, data ≠ JObj d) →
  ∃ r, translate lower wording provider self data w = Some (r, w) ∧
       (∀ resp, r = Ok resp →
                resp = with_status (jsonify missing_parameters) 400).
Proof.
  intros Hd. unfold translate.
  destruct (all_in wording data ["text"; "source_lang"; "target_lang"] w)
    as [[[b|e] w']|] eqn:Hall.
  - assert (w' = w) as ->.
    { revert Hall. unfold all_in, contains, mbind, M_bind, bind, mret, M_ret, ret.
      destruct data; try discriminate;
        repeat (match goal with |- context [if ?c then _ else _] => destruct c end);
        congruence. }
    rewrite (run_bind_ok _ _ _ _ _ Hall).
    destruct b; simpl negb; cbv iota.
    + destruct data; try (eexists; split; [reflexivity|discriminate]).
      by destruct (Hd fields).
    + eexists; split; [reflexivity|]. by intros ? [= <-].
  - assert (w' = w) as ->.
    { revert Hall. unfold all_in, contains, mbind, M_bind, bind, mret, M_ret, ret, raise.
      destruct data; try congruence;
        repeat (match goal with |- context [if ?c then _ else _] => destruct c end);
        congruence. }
    rewrite (run_bind_raise _ _ _ _ _ Hall).
    eexists; split; [reflexivity|discriminate].
  - exfalso. revert Hall.
    unfold all_in, contains, mbind, M_bind, bind, mret, M_ret, ret, raise.
    destruct data; try discriminate;
      repeat (match goal with |- context [if ?c then _ else _] => destruct c end);
      discriminate.
Qed.

(** Whatever the body, [translate] ends, leaves the store alone and makes
    no outbound call or one. *)
Lemma translate_effect data w :
  registry_ok self w →
  ∃ r w', translate lower wording provider self data w = Some (r, w') ∧
          store w' = store w ∧
          (calls w' = calls w ∨ ∃ req, calls w' = req :: calls w).
Proof.
  intros Hok.
  assert (Hnd : (∀ d, data ≠ JObj d) →
    ∃ r w', translate lower wording provider self data w = Some (r, w') ∧
            store w' = store w ∧
            (calls w' = calls w ∨ ∃ req, calls w' = req :: calls w)).
  { intros Hd. destruct (translate_not_dict data w Hd) as (r & Hr & _).
    exists r, w. auto. }
  destruct data as [| | | | |items|d]; try (apply Hnd; discriminate).
  clear Hnd.
  destruct (dict_has d "text" && dict_has d "source_lang"
            && dict_has d "target_lang") eqn:Hall.
  2:{ rewrite (translate_key_absent d w Hall). eauto 6. }
  apply andb_prop in Hall as [Hall H3]. apply andb_prop in Hall as [H1 H2].
  unfold dict_has in H1, H2, H3.
  destruct (dict_get d "text") as [text|] eqn:E1; [|done].
  destruct (dict_get d "source_lang") as [v|] eqn:E2; [|done].
  destruct (dict_get d "target_lang") as [v'|] eqn:E3; [|done].
  assert (Hv : (∃ s, v = JStr s) ∨ (∀ s, v ≠ JStr s))
    by (destruct v; eauto; right; discriminate).
  destruct Hv as [[s ->]|Hv].
  2:{ rewrite (translate_source_not_str d text v v' w E1 E2 E3 Hv). eauto 6. }
  assert (Hv' : (∃ t, v' = JStr t) ∨ (∀ t, v' ≠ JStr t))
    by (destruct v'; eauto; right; discriminate).
  destruct Hv' as [[t ->]|Hv'].
  2:{ rewrite (translate_target_not_str d text s v' w E1 E2 E3 Hv'). eauto 6. }
  rewrite (translate_run d text s t w Hok (conj E1 (conj E2 E3))).
  destruct (resolve (lower s)) as [[sc sn]|]; [|eauto 6].
  destruct (resolve (lower t)) as [[tc tn]|]; [|eauto 6].
  cbv zeta.
  destruct (provider (calls w) (provider_request self text sc tc)) as [response|e].
  - destruct (translate_v3.translations response);
      do 2 eexists; (split; [reflexivity|]); split; eauto.
  - destruct (is_Exception e);
      do 2 eexists; (split; [reflexivity|]); split; eauto.
Qed.

(** ** The list of languages *)

Lemma full_names_table w :
  full_names wording language_table [] w = Some (Ok display_names, w).
Proof. reflexivity. Qed.

(** A location the store does not use is not the table's. *)
Lemma registry_ok_insert_fresh w l o :
  registry_ok self w → store w !! l = None →
  registry_ok self (set_store (<[l := o]> (store w)) w).
Proof.
  intros Hok Hl. unfold registry_ok, set_store; simpl.
  rewrite lookup_insert_ne; [done|]. intros ->. unfold registry_ok in Hok. congruence.
Qed.

Lemma fresh_unused w : store w !! fresh (dom (store w)) = None.
Proof. apply not_elem_of_dom. apply is_fresh. Qed.

Lemma get_supported_languages_run w :
  registry_ok self w →
  get_supported_languages wording self w =
  Some (Ok (fresh (dom (store w))),
        set_store (<[fresh (dom (store w)) := NameMap display_names]> (store w)) w).
Proof.
  intros Hok. unfold get_supported_languages.
  rewrite (run_bind_ok _ _ w language_table w)
    by (unfold read_LangMap; by rewrite Hok).
  by rewrite (run_bind_ok _ _ _ _ _ (full_names_table w)).
Qed.

Lemma supported_languages_run w :
  registry_ok self w →
  supported_languages wording self w =
  Some (Ok languages_response,
        set_store (<[fresh (dom (store w)) := NameMap display_names]> (store w)) w).
Proof.
  intros Hok. unfold supported_languages.
  rewrite (run_bind_ok _ _ _ _ _ (get_supported_languages_run w Hok)).
  unfold read_NameMap, mbind, M_bind, bind; simpl.
  by rewrite lookup_insert_eq.
Qed.

(** Every request leaves the table in place. *)
Lemma serve_registry_ok r w :
  registry_ok self w →
  ∃ o w', serve lower wording provider self r w = Some (o, w') ∧
          registry_ok self w' ∧
          (r = GetLanguages → o = Ok languages_response ∧ calls w' = calls w).
Proof.
  intros Hok. destruct r as [data|]; simpl.
  - destruct (translate_effect data w Hok) as (o & w' & Hrun & Hst & _).
    exists o, w'. split; [done|]. split; [|done].
    unfold registry_ok. by rewrite Hst.
  - rewrite (supported_languages_run w Hok). do 2 eexists. split; [done|].
    split; [|done]. apply registry_ok_insert_fresh; [done|apply fresh_unused].
Qed.

Lemma run_registry_ok reqs : ∀ w,
  registry_ok self w →
  ∃ outs w', run lower wording provider self reqs w = Some (outs, w') ∧
             registry_ok self w' ∧
             Forall2 (λ r o, r = GetLanguages → o = Ok languages_response)
               reqs outs.
Proof.
  induction reqs as [|r reqs IH]; intros w Hok; simpl.
  - exists [], w. by repeat split.
  - destruct (serve_registry_ok r w Hok) as (o & w1 & -> & Hok1 & Ho).
    destruct (IH w1 Hok1) as (outs & w2 & -> & Hok2 & Hall).
    exists (o :: outs), w2. repeat split; [done|].
    constructor; [|done]. intros Hr. by apply Ho.
Qed.

End Handlers.

(** ** Start-up *)

(** With PROJECT_ID set and the client built, [__init__] gives a service
    whose table is in place. *)
Lemma init_registry_ok c pid w :
  pid ≠ "" →
  ∃ self w', __init__ (Ok c) (Some pid) w = Some (Ok self, w') ∧
             registry_ok self w' ∧
             calls w' = calls w ∧
             parent self = "projects/" +:+ pid +:+ "/locations/global".
Proof.
  intros Hpid. unfold __init__.
  rewrite (run_bind_ok _ _ w (fresh (dom (store w)))
             (set_store (<[fresh (dom (store w)) := LangMap language_table]>
                           (store w)) w)) by done.
  destruct pid as [|a pid]; [done|]. simpl.
  do 2 eexists. split; [reflexivity|]. split; [|done].
  unfold registry_ok; simpl. apply lookup_insert_eq.
Qed.

(** A service that [__init__] returned finds the table, was given a
    non-empty PROJECT_ID and has its parent path; nothing was sent. *)
Lemma init_returned client PROJECT_ID w self w' :
  __init__ client PROJECT_ID w = Some (Ok self, w') →
  ∃ pid, PROJECT_ID = Some pid ∧ pid ≠ "" ∧
         registry_ok self w' ∧
         calls w' = calls w ∧
         parent self = "projects/" +:+ pid +:+ "/locations/global".
Proof.
  unfold __init__.
  rewrite (run_bind_ok _ _ w (fresh (dom (store w)))
             (set_store (<[fresh (dom (store w)) := LangMap language_table]>
                           (store w)) w)) by done.
  destruct PROJECT_ID as [[|a pid]|]; simpl; try discriminate.
  destruct client as [c|e]; [|discriminate].
  intros [= <- <-]. exists (String a pid). repeat split; try done.
  unfold registry_ok; simpl. apply lookup_insert_eq.
Qed.

Lemma demo_started :
  Demo.started = Some (Ok Demo.translation_service, Demo.world).
Proof. vm_compute. reflexivity. Qed.

Lemma demo_registry_ok : registry_ok Demo.translation_service Demo.world.
Proof. vm_compute. reflexivity. Qed.

Lemma ascii_lower_on_ascii : lower_on_ascii ascii_lower.
Proof. by intros s _. Qed.

(** * The gateway's contract *)

(** C1. When both language keys are in the table and the Provider returns
    translations, [translate_text] returns the dict holding the text as it
    came, the first translation's text as it came and the two display
    names, and POST /translate answers 200 with that dict.  The Provider
    was called once, with the two codes. *)
Theorem translate_success lower wording provider self w text s t
    sc sn tc tn response first rest :
  registry_ok self w →
  resolve s = Some (sc, sn) →
  resolve t = Some (tc, tn) →
  provider (calls w) (provider_request self text sc tc) = Ok response →
  translate_v3.translations response = first :: rest →
  translate_text wording provider self text s t w =
    Some (Ok (JObj [ ("original_text", text);
                     ("translated_text", JStr (translate_v3.translated_text first));
                     ("source_language", JStr sn);
                     ("target_language", JStr tn) ]),
          log_call (provider_request self text sc tc) w)
  ∧ ∀ d source_lang target_lang,
      request_body d text source_lang target_lang →
      lower source_lang = s → lower target_lang = t →
      translate lower wording provider self (JObj d) w =
        Some (Ok {| status := 200;
                    body := JObj [ ("original_text", text);
                                   ("translated_text",
                                    JStr (translate_v3.translated_text first));
                                   ("source_language", JStr sn);
                                   ("target_language", JStr tn) ] |},
              log_call (provider_request self text sc tc) w).
Proof.
  intros Hok Hs Ht Hp Htr. split.
  - rewrite (translate_text_run wording provider self w text s t Hok).
    rewrite Hs, Ht. cbv zeta. by rewrite Hp, Htr.
  - intros d source_lang target_lang Hb <- <-.
    rewrite (translate_run lower wording provider self d text _ _ w Hok Hb).
    rewrite Hs, Ht. cbv zeta. by rewrite Hp, Htr.
Qed.

(** The stub Provider that upper-cases: "hello" from english to twi. *)
Lemma translate_success_witness :
  registry_ok Demo.translation_service Demo.world ∧
  translate ascii_lower Demo.wording Demo.upper_stub
    Demo.translation_service
    (JObj [ ("text", JStr "hello"); ("source_lang", JStr "english");
            ("target_lang", JStr "twi") ])
    Demo.world =
  Some (Ok {| status := 200;
              body := JObj [ ("original_text", JStr "hello");
                             ("translated_text", JStr "HELLO");
                             ("source_language", JStr "English");
                             ("target_language", JStr "Twi (Akan)") ] |},
        log_call (provider_request Demo.translation_service (JStr "hello")
                    "en-GB" "ak") Demo.world).
Proof.
  split; [exact demo_registry_ok|].
  refine (proj2 (translate_success ascii_lower Demo.wording Demo.upper_stub
            Demo.translation_service Demo.world (JStr "hello")
            "english" "twi" "en-GB" "English" "ak" "Twi (Akan)"
            {| translate_v3.translations :=
                 [ {| translate_v3.translated_text := "HELLO" |} ] |}
            {| translate_v3.translated_text := "HELLO" |} []
            demo_registry_ok _ _ _ _) _ "english" "twi" _ _ _);
    try reflexivity.
  repeat split; reflexivity.
Defined.

(** C2. The table has exactly the four keys english, twi, ga and ewe, each
    once; the lookups of [translate_text] give for each the code and the
    display name of the spec's table and fail for every other key; the
    keys are lower case, and no code and no display name is empty. *)
Theorem registry_entries wording self w :
  registry_ok self w →
  (∃ entries,
      store w !! language_map self = Some (LangMap entries) ∧
      length entries = 4 ∧
      dict_keys entries = ["english"; "twi"; "ga"; "ewe"] ∧
      NoDup (dict_keys entries) ∧
      Forall (λ k, is_ascii k = true ∧ ascii_lower k = k) (dict_keys entries))
  ∧ resolve "english" = Some ("en-GB", "English")
  ∧ resolve "twi" = Some ("ak", "Twi (Akan)")
  ∧ resolve "ga" = Some ("gaa", "Ga")
  ∧ resolve "ewe" = Some ("ee", "Ewe")
  ∧ (∀ lang code name,
        resolve lang = Some (code, name) →
        lang ∈ ["english"; "twi"; "ga"; "ewe"] ∧
        code ≠ "" ∧ name ≠ "" ∧
        language_field wording self lang "code" w = Some (Ok code, w) ∧
        language_field wording self lang "full_name" w = Some (Ok name, w))
  ∧ (∀ lang,
        lang ∉ ["english"; "twi"; "ga"; "ewe"] →
        resolve lang = None ∧
        language_field wording self lang "code" w =
          Some (Raise (Exn KeyError (wording (MissingKey lang))), w)).
Proof.
  intros Hok. split; [|split; [|split; [|split; [|split; [|split]]]]];
    try reflexivity.
  - exists language_table. split; [done|]. split; [done|]. split; [done|].
    split.
    + compute_done.
    + simpl. repeat (constructor; [by split|]). constructor.
  - intros lang code name Hr.
    rewrite (language_field_code wording self w lang Hok).
    rewrite (language_field_full_name wording self w lang Hok).
    rewrite Hr. rewrite resolve_cases in Hr.
    case_key lang; try discriminate;
      injection Hr as <- <-; repeat split; (set_solver || done).
  - intros lang Hn.
    rewrite (language_field_code wording self w lang Hok).
    assert (resolve lang = None) as ->; [|done].
    rewrite resolve_cases.
    case_key lang; (done || set_solver).
Qed.

Lemma registry_entries_witness :
  registry_ok Demo.translation_service Demo.world ∧
  language_field Demo.wording Demo.translation_service "twi" "code" Demo.world
    = Some (Ok "ak", Demo.world) ∧
  language_field Demo.wording Demo.translation_service "twi" "full_name" Demo.world
    = Some (Ok "Twi (Akan)", Demo.world).
Proof.
  split; [exact demo_registry_ok|].
  pose proof (registry_entries Demo.wording Demo.translation_service
                Demo.world demo_registry_ok) as (_ & _ & Htwi & _ & _ & Hall & _).
  destruct (Hall "twi" "ak" "Twi (Akan)" Htwi) as (_ & _ & _ & Hc & Hn).
  exact (conj Hc Hn).
Defined.

(** C3. When the source key or the target key is absent from the table,
    [translate_text] raises the one ValueError "Invalid language names",
    whichever key it was, without calling the Provider, and POST /translate
    answers 400 with that message as the error. *)
Theorem invalid_language lower wording provider self w text s t :
  registry_ok self w →
  dict_get language_table s = None ∨ dict_get language_table t = None →
  translate_text wording provider self text s t w =
    Some (Raise (Exn ValueError "Invalid language names"), w)
  ∧ ∀ d source_lang target_lang,
      request_body d text source_lang target_lang →
      lower source_lang = s → lower target_lang = t →
      translate lower wording provider self (JObj d) w =
        Some (Ok {| status := 400;
                    body := JObj [("error", JStr "Invalid language names")] |},
              w).
Proof.
  intros Hok Habs.
  assert (Hr : resolve s = None ∨ resolve t = None)
    by (destruct Habs as [H|H]; [left|right]; by apply resolve_None).
  split.
  - rewrite (translate_text_run wording provider self w text s t Hok).
    destruct Hr as [-> | ->]; [done|]. by destruct (resolve s) as [[]|].
  - intros d source_lang target_lang Hb <- <-.
    rewrite (translate_run lower wording provider self d text _ _ w Hok Hb).
    destruct Hr as [-> | ->]; [done|].
    by destruct (resolve (lower source_lang)) as [[]|].
Qed.

Lemma invalid_language_witness :
  registry_ok Demo.translation_service Demo.world ∧
  (dict_get language_table "klingon" = None ∨
   dict_get language_table "twi" = None) ∧
  translate ascii_lower Demo.wording Demo.upper_stub Demo.translation_service
    (JObj [ ("text", JStr "hello"); ("source_lang", JStr "klingon");
            ("target_lang", JStr "twi") ])
    Demo.world =
  Some (Ok {| status := 400;
              body := JObj [("error", JStr "Invalid language names")] |},
        Demo.world).
Proof.
  split; [exact demo_registry_ok|]. split; [left; reflexivity|].
  refine (proj2 (invalid_language ascii_lower Demo.wording Demo.upper_stub
            Demo.translation_service Demo.world (JStr "hello")
            "klingon" "twi" demo_registry_ok (or_introl eq_refl))
            _ "klingon" "twi" _ eq_refl eq_refl).
  repeat split; reflexivity.
Defined.

(** C4. A JSON object that lacks one of the keys text, source_lang and
    target_lang gets 400 with the missing-parameters message, whatever else
    it holds.  The check comes first: the world is untouched, no call is
    logged, and the answer does not depend on the table being in the store
    at all. *)
Theorem missing_parameters_response lower wording provider self w d :
  dict_get d "text" = None ∨ dict_get d "source_lang" = None
    ∨ dict_get d "target_lang" = None →
  translate lower wording provider self (JObj d) w =
    Some (Ok {| status := 400;
                body := JObj [("error", JStr
                  "Missing required parameters: text, source_lang, target_lang")] |},
          w).
Proof. exact (missing_parameters_absent lower wording provider self d w). Qed.

(** A body without text whose source language is unknown as well. *)
Lemma missing_parameters_response_witness :
  (dict_get [("source_lang", JStr "klingon"); ("target_lang", JStr "twi")] "text"
     = None ∨
   dict_get [("source_lang", JStr "klingon"); ("target_lang", JStr "twi")]
     "source_lang" = None ∨
   dict_get [("source_lang", JStr "klingon"); ("target_lang", JStr "twi")]
     "target_lang" = None) ∧
  translate ascii_lower Demo.wording Demo.upper_stub Demo.translation_service
    (JObj [("source_lang", JStr "klingon"); ("target_lang", JStr "twi")])
    Demo.world =
  Some (Ok {| status := 400;
              body := JObj [("error", JStr
                "Missing required parameters: text, source_lang, target_lang")] |},
        Demo.world).
Proof.
  split; [left; reflexivity|].
  apply (missing_parameters_response ascii_lower Demo.wording Demo.upper_stub
           Demo.translation_service Demo.world).
  left; reflexivity.
Defined.

(** C5. When both keys resolve and the Provider call raises an exception,
    [translate_text] catches it and raises a RuntimeError whose text is
    "Translation error: " followed by the text of the Provider's exception;
    POST /translate answers 500 with that text as the error.  The handler
    returns a response, and the response is not the 400 of an invalid
    language. *)
Theorem provider_failure lower wording provider self w text s t
    sc sn tc tn e :
  registry_ok self w →
  resolve s = Some (sc, sn) →
  resolve t = Some (tc, tn) →
  provider (calls w) (provider_request self text sc tc) = Raise e →
  is_Exception e = true →
  translate_text wording provider self text s t w =
    Some (Raise (Exn RuntimeError ("Translation error: " +:+ exc_str e)),
          log_call (provider_request self text sc tc) w)
  ∧ ∀ d source_lang target_lang,
      request_body d text source_lang target_lang →
      lower source_lang = s → lower target_lang = t →
      translate lower wording provider self (JObj d) w =
        Some (Ok {| status := 500;
                    body := JObj [("error",
                      JStr ("Translation error: " +:+ exc_str e))] |},
              log_call (provider_request self text sc tc) w)
      ∧ translate lower wording provider self (JObj d) w ≠
        Some (Ok {| status := 400;
                    body := JObj [("error", JStr "Invalid language names")] |},
              w).
Proof.
  intros Hok Hs Ht Hp He. split.
  - rewrite (translate_text_run wording provider self w text s t Hok).
    rewrite Hs, Ht. cbv zeta. by rewrite Hp, He.
  - intros d source_lang target_lang Hb <- <-.
    rewrite (translate_run lower wording provider self d text _ _ w Hok Hb).
    rewrite Hs, Ht. cbv zeta. rewrite Hp, He. split; [done|discriminate].
Qed.

Lemma provider_failure_witness :
  registry_ok Demo.translation_service Demo.world ∧
  is_Exception (Exn (OtherException "ServiceUnavailable")
                  "503 backend unavailable") = true ∧
  translate ascii_lower Demo.wording Demo.failing_stub Demo.translation_service
    Demo.hello Demo.world =
  Some (Ok {| status := 500;
              body := JObj [("error",
                JStr "Translation error: 503 backend unavailable")] |},
        log_call (provider_request Demo.translation_service (JStr "hello")
                    "en-GB" "ak") Demo.world).
Proof.
  split; [exact demo_registry_ok|]. split; [reflexivity|].
  refine (proj1 (proj2 (provider_failure ascii_lower Demo.wording
            Demo.failing_stub Demo.translation_service Demo.world
            (JStr "hello") "english" "twi" "en-GB" "English" "ak" "Twi (Akan)"
            (Exn (OtherException "ServiceUnavailable") "503 backend unavailable")
            demo_registry_ok eq_refl eq_refl eq_refl eq_refl)
            _ "english" "twi" _ eq_refl eq_refl)).
  repeat split; reflexivity.
Defined.

Lemma ascii_lower_char_idem c :
  ascii_lower_char (ascii_lower_char c) = ascii_lower_char c.
Proof.
  destruct c as [[] [] [] [] [] [] [] []]; reflexivity.
Qed.

Lemma ascii_lower_idem s : ascii_lower (ascii_lower s) = ascii_lower s.
Proof.
  induction s as [|c s IH]; simpl; [done|].
  by rewrite ascii_lower_char_idem, IH.
Qed.

Lemma ascii_lower_char_ascii c :
  (nat_of_ascii c <? 128)%nat = true →
  (nat_of_ascii (ascii_lower_char c) <? 128)%nat = true.
Proof.
  destruct c as [[] [] [] [] [] [] [] []]; (reflexivity || discriminate).
Qed.

Lemma ascii_lower_is_ascii s :
  is_ascii s = true → is_ascii (ascii_lower s) = true.
Proof.
  induction s as [|c s IH]; simpl; [done|].
  intros [Hc Hs]%andb_prop.
  by rewrite (ascii_lower_char_ascii c Hc), (IH Hs).
Qed.

(** On ASCII keys, lower-casing twice is lower-casing once. *)
Lemma lower_on_ascii_idem lower s :
  lower_on_ascii lower → is_ascii s = true → lower (lower s) = lower s.
Proof.
  intros Hlow Hs. rewrite (Hlow s Hs).
  rewrite (Hlow _ (ascii_lower_is_ascii _ Hs)). apply ascii_lower_idem.
Qed.

(** C6. POST /translate lower-cases the values of source_lang and
    target_lang and looks up the results: for a body with the three keys
    and str languages, the outcome is the one the table gives for
    [lower source_lang] and [lower target_lang] - the 400 of an unknown
    language when one of them is not a key, otherwise the one Provider
    call with their codes and the response built with their display
    names.  So a body gets the outcome of every body with the same text
    whose keys have the same lower-case form, the body that carries the
    keys already in lower case among them.  A body whose source_lang is
    "English" is looked up as "english": when the target resolves and the
    Provider returns a translation it gets the 200 with the display name
    "English". *)
Theorem language_keys_lowercased lower wording provider self w
    d text source_lang target_lang :
  registry_ok self w →
  request_body d text source_lang target_lang →
  translate lower wording provider self (JObj d) w =
    match resolve (lower source_lang), resolve (lower target_lang) with
    | Some (sc, sn), Some (tc, tn) =>
        match provider (calls w) (provider_request self text sc tc) with
        | Ok response =>
            match translate_v3.translations response with
            | first :: _ =>
                Some (Ok {| status := 200;
                            body := JObj [ ("original_text", text);
                                           ("translated_text",
                                            JStr (translate_v3.translated_text first));
                                           ("source_language", JStr sn);
                                           ("target_language", JStr tn) ] |},
                      log_call (provider_request self text sc tc) w)
            | [] =>
                Some (Ok {| status := 500;
                            body := JObj [("error",
                              JStr ("Translation error: " +:+ wording OutOfRange))] |},
                      log_call (provider_request self text sc tc) w)
            end
        | Raise e =>
            if is_Exception e
            then Some (Ok {| status := 500;
                             body := JObj [("error",
                               JStr ("Translation error: " +:+ exc_str e))] |},
                       log_call (provider_request self text sc tc) w)
            else Some (Raise e, log_call (provider_request self text sc tc) w)
        end
    | _, _ =>
        Some (Ok {| status := 400;
                    body := JObj [("error", JStr "Invalid language names")] |}, w)
    end
  ∧ (∀ d' source_lang' target_lang',
       request_body d' text source_lang' target_lang' →
       lower source_lang' = lower source_lang →
       lower target_lang' = lower target_lang →
       translate lower wording provider self (JObj d') w =
       translate lower wording provider self (JObj d) w)
  ∧ (∀ d',
       request_body d' text (lower source_lang) (lower target_lang) →
       lower (lower source_lang) = lower source_lang →
       lower (lower target_lang) = lower target_lang →
       translate lower wording provider self (JObj d') w =
       translate lower wording provider self (JObj d) w)
  ∧ (lower_on_ascii lower →
     source_lang = "English" →
     ∀ tc tn response first rest,
       resolve (lower target_lang) = Some (tc, tn) →
       provider (calls w) (provider_request self text "en-GB" tc) = Ok response →
       translate_v3.translations response = first :: rest →
       translate lower wording provider self (JObj d) w =
         Some (Ok {| status := 200;
                     body := JObj [ ("original_text", text);
                                    ("translated_text",
                                     JStr (translate_v3.translated_text first));
                                    ("source_language", JStr "English");
                                    ("target_language", JStr tn) ] |},
               log_call (provider_request self text "en-GB" tc) w)).
Proof.
  intros Hok Hb.
  pose proof (translate_run lower wording provider self d text _ _ w Hok Hb)
    as Hrun.
  assert (Heq : ∀ d' source_lang' target_lang',
            request_body d' text source_lang' target_lang' →
            lower source_lang' = lower source_lang →
            lower target_lang' = lower target_lang →
            translate lower wording provider self (JObj d') w =
            translate lower wording provider self (JObj d) w).
  { intros d' source_lang' target_lang' Hb' Hs Ht.
    rewrite (translate_body lower wording provider self _ _ _ _ w Hb).
    rewrite (translate_body lower wording provider self _ _ _ _ w Hb').
    by rewrite Hs, Ht. }
  split; [exact Hrun|]. split; [exact Heq|]. split.
  - intros d' Hb' Hs Ht. exact (Heq d' _ _ Hb' Hs Ht).
  - intros Hlow -> tc tn response first rest Ht Hp Htr.
    rewrite Hrun. rewrite (Hlow "English" eq_refl).
    change (resolve (ascii_lower "English")) with (Some ("en-GB", "English")).
    rewrite Ht. cbv beta iota zeta. by rewrite Hp, Htr.
Qed.

(** The spec's example with the keys written "English" and "TWI". *)
Lemma language_keys_lowercased_witness :
  registry_ok Demo.translation_service Demo.world ∧
  request_body [ ("text", JStr "hello"); ("source_lang", JStr "English");
                 ("target_lang", JStr "TWI") ] (JStr "hello") "English" "TWI" ∧
  translate ascii_lower Demo.wording Demo.upper_stub Demo.translation_service
    (JObj [ ("text", JStr "hello"); ("source_lang", JStr "English");
            ("target_lang", JStr "TWI") ]) Demo.world =
  Some (Ok {| status := 200;
              body := JObj [ ("original_text", JStr "hello");
                             ("translated_text", JStr "HELLO");
                             ("source_language", JStr "English");
                             ("target_language", JStr "Twi (Akan)") ] |},
        log_call (provider_request Demo.translation_service (JStr "hello")
                    "en-GB" "ak") Demo.world) ∧
  translate ascii_lower Demo.wording Demo.upper_stub Demo.translation_service
    (JObj Demo.hello_fields) Demo.world =
  translate ascii_lower Demo.wording Demo.upper_stub Demo.translation_service
    (JObj [ ("text", JStr "hello"); ("source_lang", JStr "English");
            ("target_lang", JStr "TWI") ]) Demo.world.
Proof.
  assert (H1 : request_body [ ("text", JStr "hello");
                              ("source_lang", JStr "English");
                              ("target_lang", JStr "TWI") ]
                 (JStr "hello") "English" "TWI")
    by (repeat split; reflexivity).
  assert (H2 : request_body Demo.hello_fields (JStr "hello")
                 (ascii_lower "English") (ascii_lower "TWI"))
    by (repeat split; reflexivity).
  split; [exact demo_registry_ok|]. split; [exact H1|].
  pose proof (language_keys_lowercased ascii_lower Demo.wording
                Demo.upper_stub Demo.translation_service Demo.world
                _ _ _ _ demo_registry_ok H1) as (_ & _ & Hlowered & Henglish).
  split.
  - exact (Henglish ascii_lower_on_ascii eq_refl "ak" "Twi (Akan)"
             {| translate_v3.translations :=
                  [ {| translate_v3.translated_text := "HELLO" |} ] |}
             {| translate_v3.translated_text := "HELLO" |} []
             eq_refl eq_refl eq_refl).
  - exact (Hlowered Demo.hello_fields H2 eq_refl eq_refl).
Defined.

(** C7. [get_supported_languages] returns a new dict object, at a location
    the store did not use (so not the table's), holding the four keys with
    their display names; the table and the call log are as before, and
    whatever is later written to the returned object leaves the table in
    place.  GET /languages answers 200 with those four entries, and does so
    at every position of every sequence of requests, POST /translate
    requests included. *)
Theorem languages_snapshot lower wording provider self w :
  registry_ok self w →
  ∃ l w',
    get_supported_languages wording self w = Some (Ok l, w') ∧
    store w !! l = None ∧
    l ≠ language_map self ∧
    store w' = <[l := NameMap [ ("english", "English"); ("twi", "Twi (Akan)");
                                ("ga", "Ga"); ("ewe", "Ewe") ]]> (store w) ∧
    calls w' = calls w ∧
    store w' !! language_map self = store w !! language_map self ∧
    (∀ o, registry_ok self (set_store (<[l := o]> (store w')) w')) ∧
    supported_languages wording self w =
      Some (Ok {| status := 200;
                  body := JObj [ ("english", JStr "English");
                                 ("twi", JStr "Twi (Akan)");
                                 ("ga", JStr "Ga"); ("ewe", JStr "Ewe") ] |},
            w') ∧
    ∀ reqs, ∃ outs w'',
      run lower wording provider self reqs w = Some (outs, w'') ∧
      registry_ok self w'' ∧
      Forall2 (λ r o, r = GetLanguages →
                      o = Ok {| status := 200;
                                body := JObj [ ("english", JStr "English");
                                               ("twi", JStr "Twi (Akan)");
                                               ("ga", JStr "Ga");
                                               ("ewe", JStr "Ewe") ] |})
        reqs outs.
Proof.
  intros Hok.
  pose proof (fresh_unused w) as Hfresh.
  assert (Hne : fresh (dom (store w)) ≠ language_map self).
  { intros Heq. unfold registry_ok in Hok. rewrite Heq in Hfresh. congruence. }
  eexists _, _. split; [exact (get_supported_languages_run wording self w Hok)|].
  split; [done|]. split; [done|]. split; [done|]. split; [done|].
  split; [by apply lookup_insert_ne|].
  split.
  { intros o. unfold registry_ok, set_store; simpl.
    rewrite insert_insert_eq. by rewrite lookup_insert_ne. }
  split; [exact (supported_languages_run wording self w Hok)|].
  intros reqs. exact (run_registry_ok lower wording provider self reqs w Hok).
Qed.

(** GET, POST, GET, a failing POST, GET: the three lists are the same. *)
Lemma languages_snapshot_witness :
  registry_ok Demo.translation_service Demo.world ∧
  ∃ outs w,
    run ascii_lower Demo.wording Demo.upper_stub Demo.translation_service
      [GetLanguages; PostTranslate Demo.hello; GetLanguages;
       PostTranslate JNull; GetLanguages] Demo.world = Some (outs, w) ∧
    Forall2 (λ r o, r = GetLanguages → o = Ok languages_response)
      [GetLanguages; PostTranslate Demo.hello; GetLanguages;
       PostTranslate JNull; GetLanguages] outs.
Proof.
  split; [exact demo_registry_ok|].
  destruct (languages_snapshot ascii_lower Demo.wording Demo.upper_stub
              Demo.translation_service Demo.world demo_registry_ok)
    as (l & w' & _ & _ & _ & _ & _ & _ & _ & _ & Hrun).
  destruct (Hrun [GetLanguages; PostTranslate Demo.hello; GetLanguages;
                  PostTranslate JNull; GetLanguages])
    as (outs & w'' & Hr & _ & Hall).
  exists outs, w''. exact (conj Hr Hall).
Defined.

(** C8. One run of [translate] makes no Provider call or one, whatever the
    body and whatever the Provider answers: one, with the two codes, when
    the three keys are there and both languages resolve; none when a key is
    missing or a language is not in the table. *)
Theorem one_provider_call lower wording provider self w data :
  registry_ok self w →
  ∃ r w',
    translate lower wording provider self data w = Some (r, w') ∧
    (calls w' = calls w ∨ ∃ req, calls w' = req :: calls w) ∧
    (∀ d text source_lang target_lang sc sn tc tn,
        data = JObj d →
        request_body d text source_lang target_lang →
        resolve (lower source_lang) = Some (sc, sn) →
        resolve (lower target_lang) = Some (tc, tn) →
        calls w' = provider_request self text sc tc :: calls w) ∧
    (∀ d, data = JObj d →
          dict_get d "text" = None ∨ dict_get d "source_lang" = None
            ∨ dict_get d "target_lang" = None →
          calls w' = calls w) ∧
    (∀ d text source_lang target_lang,
        data = JObj d →
        request_body d text source_lang target_lang →
        dict_get language_table (lower source_lang) = None
          ∨ dict_get language_table (lower target_lang) = None →
        calls w' = calls w).
Proof.
  intros Hok.
  destruct (translate_effect lower wording provider self data w Hok)
    as (r & w' & Hrun & _ & Hcalls).
  exists r, w'. split; [done|]. split; [done|]. split; [|split].
  - intros d text source_lang target_lang sc sn tc tn -> Hb Hs Ht.
    rewrite (translate_run lower wording provider self d text _ _ w Hok Hb) in Hrun.
    rewrite Hs, Ht in Hrun. cbv zeta in Hrun.
    destruct (provider (calls w) (provider_request self text sc tc))
      as [response|e].
    + destruct (translate_v3.translations response); by injection Hrun as _ <-.
    + destruct (is_Exception e); by injection Hrun as _ <-.
  - intros d -> Hmiss.
    rewrite (missing_parameters_absent lower wording provider self d w Hmiss)
      in Hrun.
    by injection Hrun as _ <-.
  - intros d text source_lang target_lang -> Hb Habs.
    rewrite (translate_run lower wording provider self d text _ _ w Hok Hb) in Hrun.
    assert (Hr : resolve (lower source_lang) = None
                 ∨ resolve (lower target_lang) = None)
      by (destruct Habs as [H|H]; [left|right]; by apply resolve_None).
    destruct Hr as [Hr|Hr]; rewrite Hr in Hrun.
    + by injection Hrun as _ <-.
    + destruct (resolve (lower source_lang)) as [[]|]; by injection Hrun as _ <-.
Qed.

Lemma one_provider_call_witness :
  registry_ok Demo.translation_service Demo.world ∧
  ∃ r w',
    translate ascii_lower Demo.wording Demo.failing_stub
      Demo.translation_service Demo.hello Demo.world = Some (r, w') ∧
    calls w' = [provider_request Demo.translation_service (JStr "hello")
                  "en-GB" "ak"].
Proof.
  split; [exact demo_registry_ok|].
  destruct (one_provider_call ascii_lower Demo.wording Demo.failing_stub
              Demo.translation_service Demo.world Demo.hello demo_registry_ok)
    as (r & w' & Hrun & _ & Hone & _).
  exists r, w'. split; [exact Hrun|].
  refine (Hone Demo.hello_fields (JStr "hello") "english" "twi"
            "en-GB" "English" "ak" "Twi (Akan)" eq_refl _ eq_refl eq_refl).
  repeat split; reflexivity.
Defined.

(** C9. Some bodies leave POST /translate by an exception that neither
    [except] clause handles, so that no 400 and no 500 of the handler is
    returned: the body null makes the presence check raise a TypeError, and
    a body with the three keys whose source_lang, or whose target_lang, is
    not a str (a number, say) makes [.lower()] raise an AttributeError.
    Nothing has been looked up or sent by then. *)
Theorem unhandled_errors lower wording provider self w :
  translate lower wording provider self JNull w =
    Some (Raise (Exn TypeError (wording (NotIterable "NoneType"))), w)
  ∧ (∀ d text v v',
        dict_get d "text" = Some text →
        dict_get d "source_lang" = Some v →
        dict_get d "target_lang" = Some v' →
        ((∀ s, v ≠ JStr s) →
         translate lower wording provider self (JObj d) w =
           Some (Raise (Exn AttributeError
                          (wording (NoLowerAttribute (type_name v)))), w))
        ∧ (∀ s, v = JStr s → (∀ t, v' ≠ JStr t) →
           translate lower wording provider self (JObj d) w =
             Some (Raise (Exn AttributeError
                            (wording (NoLowerAttribute (type_name v')))), w))).
Proof.
  split; [reflexivity|].
  intros d text v v' H1 H2 H3. split.
  - intros Hv.
    exact (translate_source_not_str lower wording provider self
             d text v v' w H1 H2 H3 Hv).
  - intros s -> Hv'.
    exact (translate_target_not_str lower wording provider self
             d text s v' w H1 H2 H3 Hv').
Qed.

(** source_lang is the number 5. *)
Lemma unhandled_errors_witness :
  translate ascii_lower Demo.wording Demo.upper_stub Demo.translation_service
    (JObj [ ("text", JStr "hello"); ("source_lang", JInt 5);
            ("target_lang", JStr "twi") ]) Demo.world =
  Some (Raise (Exn AttributeError "'int' object has no attribute 'lower'"),
        Demo.world).
Proof.
  refine (proj1 (proj2 (unhandled_errors ascii_lower Demo.wording
            Demo.upper_stub Demo.translation_service Demo.world)
            [ ("text", JStr "hello"); ("source_lang", JInt 5);
              ("target_lang", JStr "twi") ]
            (JStr "hello") (JInt 5) (JStr "twi") eq_refl eq_refl eq_refl) _).
  discriminate.
Defined.

(** C10. The second [try] of [translate_text] covers the building of the
    result: when the Provider returns no translation, taking the first
    raises an IndexError that is caught and raised again as the
    RuntimeError "Translation error: ...", and POST /translate answers 500.
    [translate_text] returns only when both keys resolved and the Provider
    returned a translation. *)
Theorem empty_translations lower wording provider self w text s t :
  registry_ok self w →
  (∀ sc sn tc tn response,
      resolve s = Some (sc, sn) →
      resolve t = Some (tc, tn) →
      provider (calls w) (provider_request self text sc tc) = Ok response →
      translate_v3.translations response = [] →
      fault_class OutOfRange = IndexError ∧
      translate_text wording provider self text s t w =
        Some (Raise (Exn RuntimeError
                       ("Translation error: " +:+ wording OutOfRange)),
              log_call (provider_request self text sc tc) w)
      ∧ ∀ d source_lang target_lang,
          request_body d text source_lang target_lang →
          lower source_lang = s → lower target_lang = t →
          translate lower wording provider self (JObj d) w =
            Some (Ok {| status := 500;
                        body := JObj [("error",
                          JStr ("Translation error: " +:+ wording OutOfRange))] |},
                  log_call (provider_request self text sc tc) w))
  ∧ (∀ v w',
      translate_text wording provider self text s t w = Some (Ok v, w') →
      ∃ sc sn tc tn response first rest,
        resolve s = Some (sc, sn) ∧ resolve t = Some (tc, tn) ∧
        provider (calls w) (provider_request self text sc tc) = Ok response ∧
        translate_v3.translations response = first :: rest ∧
        v = translation_result text (translate_v3.translated_text first) sn tn).
Proof.
  intros Hok. split.
  - intros sc sn tc tn response Hs Ht Hp Htr. split; [done|]. split.
    + rewrite (translate_text_run wording provider self w text s t Hok).
      rewrite Hs, Ht. cbv zeta. by rewrite Hp, Htr.
    + intros d source_lang target_lang Hb <- <-.
      rewrite (translate_run lower wording provider self d text _ _ w Hok Hb).
      rewrite Hs, Ht. cbv zeta. by rewrite Hp, Htr.
  - intros v w'.
    rewrite (translate_text_run wording provider self w text s t Hok).
    destruct (resolve s) as [[sc sn]|]; [|discriminate].
    destruct (resolve t) as [[tc tn]|]; [|discriminate].
    cbv zeta.
    destruct (provider (calls w) (provider_request self text sc tc))
      as [response|e] eqn:Hp.
    + destruct (translate_v3.translations response) as [|first rest] eqn:Htr;
        [discriminate|].
      intros [= <- _]. by exists sc, sn, tc, tn, response, first, rest.
    + by destruct (is_Exception e).
Qed.

Lemma empty_translations_witness :
  registry_ok Demo.translation_service Demo.world ∧
  translate ascii_lower Demo.wording Demo.empty_stub Demo.translation_service
    Demo.hello Demo.world =
  Some (Ok {| status := 500;
              body := JObj [("error",
                JStr "Translation error: list index out of range")] |},
        log_call (provider_request Demo.translation_service (JStr "hello")
                    "en-GB" "ak") Demo.world).
Proof.
  split; [exact demo_registry_ok|].
  refine (proj2 (proj2 (proj1 (empty_translations ascii_lower Demo.wording
            Demo.empty_stub Demo.translation_service Demo.world
            (JStr "hello") "english" "twi" demo_registry_ok)
            "en-GB" "English" "ak" "Twi (Akan)"
            {| translate_v3.translations := [] |}
            eq_refl eq_refl eq_refl eq_refl))
            Demo.hello_fields "english" "twi" _ eq_refl eq_refl).
  repeat split; reflexivity.
Defined.

(** * Further properties of the code *)

(** ** Start-up *)



(** X2. From start-up to the wire: a service that [__init__] returned for
    PROJECT_ID [pid] answers a body with the three keys and two known
    languages by sending the Provider one request, whose contents is the
    one text, whose codes are the table's, whose parent is
    "projects/<pid>/locations/global" and whose mime type is "text/plain",
    whatever the Provider answers.  [__init__] returns such a service
    whenever [pid] is not empty and the client is built. *)
Theorem started_service_request lower wording provider client pid w0
    d text source_lang target_lang sc sn tc tn :
  pid ≠ "" →
  request_body d text source_lang target_lang →
  resolve (lower source_lang) = Some (sc, sn) →
  resolve (lower target_lang) = Some (tc, tn) →
  (∀ self w,
      __init__ client (Some pid) w0 = Some (Ok self, w) →
      ∃ r w',
        translate lower wording provider self (JObj d) w = Some (r, w') ∧
        calls w' =
          {| translate_v3.contents := [text];
             translate_v3.target_language_code := tc;
             translate_v3.source_language_code := sc;
             translate_v3.parent := "projects/" +:+ pid +:+ "/locations/global";
             translate_v3.mime_type := "text/plain" |} :: calls w0)
  ∧ (∀ c, client = Ok c →
      ∃ self w r w',
        __init__ client (Some pid) w0 = Some (Ok self, w) ∧
        translate lower wording provider self (JObj d) w = Some (r, w') ∧
        calls w' =
          {| translate_v3.contents := [text];
             translate_v3.target_language_code := tc;
             translate_v3.source_language_code := sc;
             translate_v3.parent := "projects/" +:+ pid +:+ "/locations/global";
             translate_v3.mime_type := "text/plain" |} :: calls w0).
Proof.
  intros Hpid Hb Hs Ht.
  assert (Hstarted : ∀ self w,
    __init__ client (Some pid) w0 = Some (Ok self, w) →
    ∃ r w',
      translate lower wording provider self (JObj d) w = Some (r, w') ∧
      calls w' =
        {| translate_v3.contents := [text];
           translate_v3.target_language_code := tc;
           translate_v3.source_language_code := sc;
           translate_v3.parent := "projects/" +:+ pid +:+ "/locations/global";
           translate_v3.mime_type := "text/plain" |} :: calls w0).
  { intros self w Hinit.
    destruct (init_returned client (Some pid) w0 self w Hinit)
      as (pid' & [= <-] & _ & Hok & Hcalls & Hpar).
    pose proof (translate_run lower wording provider self d text _ _ w Hok Hb)
      as Hrun.
    rewrite Hs, Ht in Hrun. cbv zeta in Hrun.
    assert (Hreq : provider_request self text sc tc =
      {| translate_v3.contents := [text];
         translate_v3.target_language_code := tc;
         translate_v3.source_language_code := sc;
         translate_v3.parent := "projects/" +:+ pid +:+ "/locations/global";
         translate_v3.mime_type := "text/plain" |})
      by (unfold provider_request; by rewrite Hpar).
    rewrite Hreq in Hrun. rewrite <- Hcalls.
    destruct (provider (calls w) _) as [response|e].
    - destruct (translate_v3.translations response);
        eexists _, _; (split; [exact Hrun|]); done.
    - destruct (is_Exception e);
        eexists _, _; (split; [exact Hrun|]); done. }
  split; [exact Hstarted|].
  intros c ->.
  destruct (init_registry_ok c pid w0 Hpid) as (self & w & Hinit & _).
  destruct (Hstarted self w Hinit) as (r & w' & Hrun & Hcalls).
  by exists self, w, r, w'.
Qed.

Lemma started_service_request_witness :
  "demo" ≠ "" ∧
  ∃ self w r w',
    __init__ (Ok tt) (Some "demo") Demo.empty_world = Some (Ok self, w) ∧
    translate ascii_lower Demo.wording Demo.failing_stub self Demo.hello w
      = Some (r, w') ∧
    calls w' =
      [ {| translate_v3.contents := [JStr "hello"];
           translate_v3.target_language_code := "ak";
           translate_v3.source_language_code := "en-GB";
           translate_v3.parent := "projects/demo/locations/global";
           translate_v3.mime_type := "text/plain" |} ].
Proof.
  split; [discriminate|].
  refine (proj2 (started_service_request ascii_lower Demo.wording
            Demo.failing_stub (Ok tt)
            "demo" Demo.empty_world Demo.hello_fields (JStr "hello")
            "english" "twi" "en-GB" "English" "ak" "Twi (Akan)"
            ltac:(discriminate) _ eq_refl eq_refl) tt eq_refl).
  repeat split; reflexivity.
Defined.

(** ** Bodies that are not objects *)

Section Bodies.

Variable lower : string → string.
Variable wording : fault → string.
Variable provider :
  list ProviderRequest → ProviderRequest → Result translate_v3.TranslateTextResponse.
Variable self : TranslationService.

Lemma translate_scalar data w :
  match data with
  | JNull | JBool _ | JInt _ | JFloat _ => True
  | _ => False
  end →
  translate lower wording provider self data w =
  Some (Raise (Exn TypeError (wording (NotIterable (type_name data)))), w).
Proof. by destruct data. Qed.

Lemma translate_array items w :
  translate lower wording provider self (JArr items) w =
  Some (if existsb (is_str_equal "text") items
           && existsb (is_str_equal "source_lang") items
           && existsb (is_str_equal "target_lang") items
        then Raise (Exn TypeError (wording (BadSubscript "list")))
        else Ok (with_status (jsonify missing_parameters) 400), w).
Proof.
  unfold translate, all_in, contains, mbind, M_bind, bind, mret, M_ret, ret.
  by destruct (existsb (is_str_equal "text") items),
    (existsb (is_str_equal "source_lang") items),
    (existsb (is_str_equal "target_lang") items).
Qed.

Lemma translate_str s w :
  translate lower wording provider self (JStr s) w =
  Some (if is_substring "text" s && is_substring "source_lang" s
           && is_substring "target_lang" s
        then Raise (Exn TypeError (wording (BadSubscript "str")))
        else Ok (with_status (jsonify missing_parameters) 400), w).
Proof.
  unfold translate, all_in, contains, mbind, M_bind, bind, mret, M_ret, ret.
  by destruct (is_substring "text" s), (is_substring "source_lang" s),
    (is_substring "target_lang" s).
Qed.

End Bodies.

(** [key in items] for a list is: some item is the str [key]. *)
Lemma existsb_is_str_equal key (items : list json) :
  existsb (is_str_equal key) items = true ↔ JStr key ∈ items.
Proof.
  rewrite existsb_exists. split.
  - intros (v & Hin & Hv). destruct v; try discriminate.
    apply String.eqb_eq in Hv as ->. by apply list_elem_of_In.
  - intros Hin. exists (JStr key). split; [by apply list_elem_of_In|].
    simpl. apply String.eqb_refl.
Qed.

Lemma has_prefix_spec p s :
  has_prefix p s = true ↔ ∃ post, s = p +:+ post.
Proof.
  revert s. induction p as [|a p IH]; intros s; simpl.
  - split; [by exists s|done].
  - destruct s as [|b s]; simpl.
    + split; [discriminate|]. by intros (post & ?).
    + destruct (Ascii.eqb_spec a b) as [->|Hne].
      * rewrite IH. split.
        -- intros (post & ->). by exists post.
        -- intros (post & [= ->]). by exists post.
      * split; [discriminate|]. intros (post & [= <- _]). done.
Qed.

(** [p in s] for two strs is: [s] is some text, then [p], then some text. *)
Lemma is_substring_spec p s :
  is_substring p s = true ↔ ∃ pre post, s = pre +:+ p +:+ post.
Proof.
  induction s as [|b s IH]; simpl.
  - destruct (has_prefix p "") eqn:Hp.
    + apply has_prefix_spec in Hp as (post & Hp).
      split; [|done]. intros _. by exists "", post.
    + split; [discriminate|]. intros (pre & post & Heq).
      destruct pre; [|discriminate]. simpl in Heq.
      assert (has_prefix p "" = true) by (apply has_prefix_spec; by exists post).
      congruence.
  - destruct (has_prefix p (String b s)) eqn:Hp.
    + apply has_prefix_spec in Hp as (post & Hp).
      split; [|done]. intros _. by exists "", post.
    + rewrite IH. split.
      * intros (pre & post & ->). by exists (String b pre), post.
      * intros (pre & post & Heq). destruct pre as [|c pre]; simpl in Heq.
        -- assert (has_prefix p (String b s) = true)
             by (apply has_prefix_spec; by exists post).
           congruence.
        -- injection Heq as _ ->. by exists pre, post.
Qed.

(** X4. A body that is not an object never reaches a lookup or the
    Provider.  On null, a bool or a number the presence check raises a
    TypeError.  On an array the check is membership: an array that has the
    three key names among its items passes the check and the first
    subscript raises a TypeError, any other array gets the 400 of missing
    parameters.  On a str the check is substring search, with the same two
    outcomes.  The world is as before in each case. *)
Theorem body_not_object lower wording provider self w :
  (∀ data,
      match data with
      | JNull | JBool _ | JInt _ | JFloat _ => True
      | _ => False
      end →
      translate lower wording provider self data w =
        Some (Raise (Exn TypeError (wording (NotIterable (type_name data)))), w))
  ∧ (∀ items,
      (JStr "text" ∈ items ∧ JStr "source_lang" ∈ items
         ∧ JStr "target_lang" ∈ items →
       translate lower wording provider self (JArr items) w =
         Some (Raise (Exn TypeError (wording (BadSubscript "list"))), w))
      ∧ (¬ (JStr "text" ∈ items ∧ JStr "source_lang" ∈ items
              ∧ JStr "target_lang" ∈ items) →
         translate lower wording provider self (JArr items) w =
           Some (Ok {| status := 400;
                       body := JObj [("error", JStr
             "Missing required parameters: text, source_lang, target_lang")] |},
                 w)))
  ∧ (∀ s,
      (occurs_in "text" s ∧ occurs_in "source_lang" s
         ∧ occurs_in "target_lang" s →
       translate lower wording provider self (JStr s) w =
         Some (Raise (Exn TypeError (wording (BadSubscript "str"))), w))
      ∧ (¬ (occurs_in "text" s ∧ occurs_in "source_lang" s
              ∧ occurs_in "target_lang" s) →
         translate lower wording provider self (JStr s) w =
           Some (Ok {| status := 400;
                       body := JObj [("error", JStr
             "Missing required parameters: text, source_lang, target_lang")] |},
                 w))).
Proof.
  split; [exact (λ data, translate_scalar lower wording provider self data w)|].
  split.
  - intros items. rewrite translate_array.
    rewrite <- !existsb_is_str_equal.
    destruct (existsb (is_str_equal "text") items),
      (existsb (is_str_equal "source_lang") items),
      (existsb (is_str_equal "target_lang") items); simpl;
      (split; [intros (? & ? & ?)|intros Hn]); try done;
      exfalso; by apply Hn.
  - intros s. rewrite translate_str. unfold occurs_in.
    rewrite <- !is_substring_spec.
    destruct (is_substring "text" s), (is_substring "source_lang" s),
      (is_substring "target_lang" s); simpl;
      (split; [intros (? & ? & ?)|intros Hn]); try done;
      exfalso; by apply Hn.
Qed.

(** An array that lists the three names, and a str that spells them. *)
Lemma body_not_object_witness :
  translate ascii_lower Demo.wording Demo.upper_stub Demo.translation_service
    (JArr [JStr "text"; JStr "source_lang"; JStr "target_lang"]) Demo.world =
  Some (Raise (Exn TypeError "list indices must be integers or slices, not str"),
        Demo.world)
  ∧ translate ascii_lower Demo.wording Demo.upper_stub Demo.translation_service
      (JStr "text, source_lang, target_lang") Demo.world =
    Some (Raise (Exn TypeError "string indices must be integers, not 'str'"),
          Demo.world).
Proof.
  pose proof (body_not_object ascii_lower Demo.wording Demo.upper_stub
                Demo.translation_service Demo.world) as (_ & Harr & Hstr).
  split.
  - apply (proj1 (Harr _)).
    rewrite <- !existsb_is_str_equal. repeat split; reflexivity.
  - apply (proj1 (Hstr _)). unfold occurs_in.
    rewrite <- !is_substring_spec. repeat split; reflexivity.
Defined.

(** ** Every way [translate] can end *)

Section Outcomes.

Variable lower : string → string.
Variable wording : fault → string.
Variable provider :
  list ProviderRequest → ProviderRequest → Result translate_v3.TranslateTextResponse.
Variable self : TranslationService.

(** The four ways out: the 400 of a missing key; an error of the
    interpreter on a malformed body; the 400 of an unknown language; and,
    once the Provider has been called, the 200, a 500 or the Provider's own
    signal. *)
Lemma translate_outcomes data w :
  registry_ok self w →
  ∃ r w',
    translate lower wording provider self data w = Some (r, w') ∧
    ((w' = w ∧ r = Ok (with_status (jsonify missing_parameters) 400))
     ∨ (w' = w ∧ ∃ f, r = Raise (fault_exn wording f) ∧
                      (fault_class f = TypeError ∨ fault_class f = AttributeError))
     ∨ (w' = w ∧
        r = Ok {| status := 400;
                  body := JObj [("error", JStr "Invalid language names")] |})
     ∨ (∃ req, w' = log_call req w ∧
          ((∃ text translated sn tn,
               r = Ok (jsonify (translation_result text translated sn tn)))
           ∨ (∃ msg, r = Ok {| status := 500;
                               body := JObj [("error",
                                 JStr ("Translation error: " +:+ msg))] |})
           ∨ (∃ e, r = Raise e ∧ is_Exception e = false ∧
                   provider (calls w) req = Raise e)))).
Proof.
  intros Hok.
  destruct data as [|b|n|lit|s|items|d].
  1-4: eexists _, w; (split; [by apply translate_scalar|]);
       right; left; (split; [done|]);
       (eexists (NotIterable _); split; [reflexivity|by left]).
  - rewrite translate_str. eexists _, w. split; [reflexivity|].
    destruct (_ && _); [right; left|by left].
    split; [done|]. exists (BadSubscript "str"). split; [done|by left].
  - rewrite translate_array. eexists _, w. split; [reflexivity|].
    destruct (_ && _); [right; left|by left].
    split; [done|]. exists (BadSubscript "list"). split; [done|by left].
  - destruct (dict_has d "text" && dict_has d "source_lang"
              && dict_has d "target_lang") eqn:Hall.
    2:{ rewrite (translate_key_absent lower wording provider self d w Hall).
        eexists _, w. split; [reflexivity|]. by left. }
    apply andb_prop in Hall as [Hall H3]. apply andb_prop in Hall as [H1 H2].
    unfold dict_has in H1, H2, H3.
    destruct (dict_get d "text") as [text|] eqn:E1; [|done].
    destruct (dict_get d "source_lang") as [v|] eqn:E2; [|done].
    destruct (dict_get d "target_lang") as [v'|] eqn:E3; [|done].
    assert (Hv : (∃ s, v = JStr s) ∨ (∀ s, v ≠ JStr s))
      by (destruct v; eauto; right; discriminate).
    destruct Hv as [[s ->]|Hv].
    2:{ rewrite (translate_source_not_str lower wording provider self
                   d text v v' w E1 E2 E3 Hv).
        eexists _, w. split; [reflexivity|]. right; left. split; [done|].
        eexists (NoLowerAttribute _). split; [reflexivity|by right]. }
    assert (Hv' : (∃ t, v' = JStr t) ∨ (∀ t, v' ≠ JStr t))
      by (destruct v'; eauto; right; discriminate).
    destruct Hv' as [[t ->]|Hv'].
    2:{ rewrite (translate_target_not_str lower wording provider self
                   d text s v' w E1 E2 E3 Hv').
        eexists _, w. split; [reflexivity|]. right; left. split; [done|].
        eexists (NoLowerAttribute _). split; [reflexivity|by right]. }
    rewrite (translate_run lower wording provider self d text s t w Hok
               (conj E1 (conj E2 E3))).
    destruct (resolve (lower s)) as [[sc sn]|];
      [|eexists _, w; split; [reflexivity|]; by right; right; left].
    destruct (resolve (lower t)) as [[tc tn]|];
      [|eexists _, w; split; [reflexivity|]; by right; right; left].
    cbv zeta.
    destruct (provider (calls w) (provider_request self text sc tc))
      as [response|e] eqn:Hp.
    + destruct (translate_v3.translations response) as [|first rest].
      * eexists _, _. split; [reflexivity|]. do 3 right.
        eexists. split; [reflexivity|]. right; left. by eexists.
      * eexists _, _. split; [reflexivity|]. do 3 right.
        eexists. split; [reflexivity|]. left. by eexists _, _, _, _.
    + destruct (is_Exception e) eqn:He.
      * eexists _, _. split; [reflexivity|]. do 3 right.
        eexists. split; [reflexivity|]. right; left. by eexists.
      * eexists _, _. split; [reflexivity|]. do 3 right.
        eexists. split; [reflexivity|]. right; right. by exists e.
Qed.

End Outcomes.

(** X3. Whatever the body, a response of POST /translate has status 200,
    400 or 500: a 200 carries the dict with the four result keys, a 400
    carries one of the two fixed messages, a 500 carries an error that
    starts with "Translation error: ".  The handler never writes the
    store. *)
Theorem response_statuses lower wording provider self w data resp w' :
  registry_ok self w →
  translate lower wording provider self data w = Some (Ok resp, w') →
  store w' = store w ∧
  ((status resp = 200%Z ∧
    ∃ text translated sn tn,
      body resp = JObj [ ("original_text", text);
                         ("translated_text", JStr translated);
                         ("source_language", JStr sn);
                         ("target_language", JStr tn) ])
   ∨ (status resp = 400%Z ∧
      (body resp = JObj [("error", JStr
         "Missing required parameters: text, source_lang, target_lang")]
       ∨ body resp = JObj [("error", JStr "Invalid language names")]))
   ∨ (status resp = 500%Z ∧
      ∃ msg, body resp = JObj [("error", JStr ("Translation error: " +:+ msg))])).
Proof.
  intros Hok Hrun.
  destruct (translate_outcomes lower wording provider self data w Hok)
    as (r & w1 & Hrun1 & Hcases).
  rewrite Hrun in Hrun1. injection Hrun1 as <- <-.
  destruct Hcases as [[-> [= ->]] | [[-> (f & [=] & _)]
                     | [[-> [= ->]] | (req & -> & Hcalled)]]].
  - split; [done|]. right; left. split; [done|by left].
  - split; [done|]. right; left. split; [done|by right].
  - split; [done|].
    destruct Hcalled as [(text & tr & sn & tn & [= ->])
                        | [(msg & [= ->]) | (e & [=] & _)]].
    + left. split; [done|]. by exists text, tr, sn, tn.
    + right; right. split; [done|]. by exists msg.
Qed.

Lemma response_statuses_witness :
  registry_ok Demo.translation_service Demo.world ∧
  ∃ resp w',
    translate ascii_lower Demo.wording Demo.empty_stub Demo.translation_service
      Demo.hello Demo.world = Some (Ok resp, w') ∧
    store w' = store Demo.world.
Proof.
  split; [exact demo_registry_ok|].
  eexists _, _. split; [reflexivity|].
  exact (proj1 (response_statuses ascii_lower Demo.wording Demo.empty_stub
                  Demo.translation_service Demo.world Demo.hello _ _
                  demo_registry_ok eq_refl)).
Defined.

(** X5. The only exceptions that leave POST /translate are: the one that
    [request.json] raised on line 91 for a body that is not JSON, before
    anything else was done; a TypeError or an AttributeError of the
    interpreter on a parsed body that is malformed, raised before anything
    was looked up or sent; and a signal that the Provider call itself
    raised and that is not an Exception, passed on as it is after the one
    call.  The handler's own KeyError, IndexError, ValueError and
    RuntimeError never leave it. *)
Theorem escaping_exceptions lower wording provider self w request_json e w' :
  registry_ok self w →
  translate_route lower wording provider self request_json w
    = Some (Raise e, w') →
  (request_json = Raise e ∧ w' = w)
  ∨ (∃ data, request_json = Ok data ∧
             (exc_class_of e = TypeError ∨ exc_class_of e = AttributeError) ∧
             w' = w)
  ∨ (∃ data, request_json = Ok data ∧
             is_Exception e = false ∧
             ∃ req, provider (calls w) req = Raise e ∧ w' = log_call req w).
Proof.
  intros Hok Hrun.
  destruct request_json as [data|e0]; simpl in Hrun.
  2:{ left. by injection Hrun as <- <-. }
  right.
  destruct (translate_outcomes lower wording provider self data w Hok)
    as (r & w1 & Hrun1 & Hcases).
  rewrite Hrun in Hrun1. injection Hrun1 as <- <-.
  destruct Hcases as [[_ [=]] | [[-> (f & [= ->] & Hf)]
                     | [[_ [=]] | (req & -> & Hcalled)]]].
  - left. by exists data.
  - destruct Hcalled as [(? & ? & ? & ? & [=]) | [(? & [=]) | (e' & [= ->] & He & Hp)]].
    right. exists data. split; [done|]. split; [done|]. by exists req.
Qed.

(** A body that is not JSON, and a Provider call cut short. *)
Lemma escaping_exceptions_witness :
  registry_ok Demo.translation_service Demo.world ∧
  translate_route ascii_lower Demo.wording Demo.upper_stub
    Demo.translation_service (Raise BadRequest) Demo.world
    = Some (Raise BadRequest, Demo.world) ∧
  translate_route ascii_lower Demo.wording interrupted_stub
    Demo.translation_service (Ok Demo.hello) Demo.world =
  Some (Raise (Exn (ExitSignal "KeyboardInterrupt") ""),
        log_call (provider_request Demo.translation_service (JStr "hello")
                    "en-GB" "ak") Demo.world) ∧
  is_Exception (Exn (ExitSignal "KeyboardInterrupt") "") = false.
Proof.
  split; [exact demo_registry_ok|]. split; [reflexivity|].
  split; [reflexivity|].
  destruct (escaping_exceptions ascii_lower Demo.wording interrupted_stub
              Demo.translation_service Demo.world (Ok Demo.hello) _ _
              demo_registry_ok eq_refl)
    as [[Hc _]|[(data & _ & [Hc|Hc] & _)|(data & _ & Hc & _)]].
  - discriminate Hc.
  - discriminate Hc.
  - discriminate Hc.
  - exact Hc.
Defined.

(** X6. What a response to a body with the three keys and str languages
    tells the caller.  A 400 means that a lower-cased key is not in the
    table and that nothing was sent.  A 200 means that both keys are in the
    table and that the Provider returned a translation, whose first text is
    in the body beside the text sent and the two display names.  A 500 means
    that both keys are in the table and that the Provider, called once,
    raised an exception or returned no translation. *)
Theorem response_meaning lower wording provider self w
    d text source_lang target_lang resp w' :
  registry_ok self w →
  request_body d text source_lang target_lang →
  translate lower wording provider self (JObj d) w = Some (Ok resp, w') →
  (status resp = 400%Z →
     (dict_get language_table (lower source_lang) = None
      ∨ dict_get language_table (lower target_lang) = None) ∧ w' = w)
  ∧ (status resp = 200%Z →
     ∃ sc sn tc tn response first rest,
       resolve (lower source_lang) = Some (sc, sn) ∧
       resolve (lower target_lang) = Some (tc, tn) ∧
       provider (calls w) (provider_request self text sc tc) = Ok response ∧
       translate_v3.translations response = first :: rest ∧
       body resp = translation_result text
                     (translate_v3.translated_text first) sn tn ∧
       w' = log_call (provider_request self text sc tc) w)
  ∧ (status resp = 500%Z →
     ∃ sc sn tc tn,
       resolve (lower source_lang) = Some (sc, sn) ∧
       resolve (lower target_lang) = Some (tc, tn) ∧
       w' = log_call (provider_request self text sc tc) w ∧
       ((∃ e, provider (calls w) (provider_request self text sc tc) = Raise e ∧
              is_Exception e = true ∧
              body resp = JObj [("error",
                JStr ("Translation error: " +:+ exc_str e))])
        ∨ (∃ response,
              provider (calls w) (provider_request self text sc tc) = Ok response ∧
              translate_v3.translations response = []))).
Proof.
  intros Hok Hb.
  rewrite (translate_run lower wording provider self d text _ _ w Hok Hb).
  destruct (resolve (lower source_lang)) as [[sc sn]|] eqn:Hs.
  2:{ intros [= <- <-]. apply resolve_None in Hs.
      split; [by intros _; split; [left|]|]. split; discriminate. }
  destruct (resolve (lower target_lang)) as [[tc tn]|] eqn:Ht.
  2:{ intros [= <- <-]. apply resolve_None in Ht.
      split; [by intros _; split; [right|]|]. split; discriminate. }
  cbv zeta.
  destruct (provider (calls w) (provider_request self text sc tc))
    as [response|e] eqn:Hp.
  - destruct (translate_v3.translations response) as [|first rest] eqn:Htr.
    + intros [= <- <-]. split; [discriminate|]. split; [discriminate|].
      intros _. exists sc, sn, tc, tn. repeat split. right. by exists response.
    + intros [= <- <-]. split; [discriminate|]. split; [|discriminate].
      intros _. by exists sc, sn, tc, tn, response, first, rest.
  - destruct (is_Exception e) eqn:He; [|discriminate].
    intros [= <- <-]. split; [discriminate|]. split; [discriminate|].
    intros _. exists sc, sn, tc, tn. repeat split. left. by exists e.
Qed.

Lemma response_meaning_witness :
  registry_ok Demo.translation_service Demo.world ∧
  request_body Demo.hello_fields (JStr "hello") "english" "twi" ∧
  ∃ sc sn tc tn response first rest,
    resolve (ascii_lower "english") = Some (sc, sn) ∧
    resolve (ascii_lower "twi") = Some (tc, tn) ∧
    Demo.upper_stub (calls Demo.world)
      (provider_request Demo.translation_service (JStr "hello") sc tc)
    = Ok response ∧
    translate_v3.translations response = first :: rest ∧
    JObj [ ("original_text", JStr "hello"); ("translated_text", JStr "HELLO");
           ("source_language", JStr "English");
           ("target_language", JStr "Twi (Akan)") ]
    = translation_result (JStr "hello")
        (translate_v3.translated_text first) sn tn ∧
    log_call (provider_request Demo.translation_service (JStr "hello")
                "en-GB" "ak") Demo.world
    = log_call (provider_request Demo.translation_service (JStr "hello") sc tc)
        Demo.world.
Proof.
  assert (Hb : request_body Demo.hello_fields (JStr "hello") "english" "twi")
    by (repeat split; reflexivity).
  split; [exact demo_registry_ok|]. split; [exact Hb|].
  exact (proj1 (proj2 (response_meaning ascii_lower Demo.wording
           Demo.upper_stub Demo.translation_service Demo.world
           Demo.hello_fields (JStr "hello") "english" "twi"
           {| status := 200;
              body := JObj [ ("original_text", JStr "hello");
                             ("translated_text", JStr "HELLO");
                             ("source_language", JStr "English");
                             ("target_language", JStr "Twi (Akan)") ] |}
           (log_call (provider_request Demo.translation_service (JStr "hello")
                        "en-GB" "ak") Demo.world)
           demo_registry_ok Hb eq_refl)) eq_refl).
Defined.

(** ** The list of languages, for any table *)

Lemma dict_set_new {V} (d : list (string * V)) k v :
  k ∉ dict_keys d → dict_set d k v = d ++ [(k, v)].
Proof.
  induction d as [|[k' v'] d IH]; simpl; [done|].
  intros Hk. apply not_elem_of_cons in Hk as [Hne Hk].
  destruct (String.eqb_spec k k') as [->|_]; [done|].
  by rewrite (IH Hk).
Qed.

Section AnyTable.

Variable wording : fault → string.

(** When every entry has a display name and no key comes twice, the
    comprehension lists the keys in order, each with its name. *)
Lemma full_names_ok w items : ∀ acc,
  NoDup (dict_keys acc ++ dict_keys items) →
  Forall (λ kv, is_Some (dict_get kv.2 "full_name")) items →
  ∃ names,
    full_names wording items acc w = Some (Ok (acc ++ names), w) ∧
    Forall2 (λ kv kn, kn.1 = kv.1 ∧ dict_get kv.2 "full_name" = Some kn.2)
      items names.
Proof.
  induction items as [|[lang details] items IH]; intros acc Hnd Hall; simpl.
  - exists []. by rewrite app_nil_r.
  - apply Forall_cons in Hall as [[name Hname] Hall]. simpl in Hname.
    unfold getitem. rewrite Hname.
    rewrite (run_bind_ok _ _ w name w) by done.
    simpl in Hnd.
    assert (Hnew : lang ∉ dict_keys acc).
    { apply NoDup_app in Hnd as (_ & Hdisj & _).
      intros Hin. apply (Hdisj lang Hin). by left. }
    rewrite (dict_set_new acc lang name Hnew).
    destruct (IH (acc ++ [(lang, name)])) as (names & Hrun & Hrel).
    + unfold dict_keys in *. rewrite map_app. simpl.
      by rewrite <- app_assoc.
    + done.
    + exists ((lang, name) :: names). split.
      * rewrite Hrun. by rewrite <- app_assoc.
      * by constructor.
Qed.

(** An entry without a display name stops the comprehension. *)
Lemma full_names_missing w items : ∀ acc,
  Exists (λ kv, dict_get kv.2 "full_name" = None) items →
  full_names wording items acc w =
    Some (Raise (fault_exn wording (MissingKey "full_name")), w).
Proof.
  induction items as [|[lang details] items IH]; intros acc Hex; simpl.
  - by apply Exists_nil in Hex.
  - unfold getitem.
    destruct (dict_get details "full_name") as [name|] eqn:Hname.
    + rewrite (run_bind_ok _ _ w name w) by done.
      apply IH. apply Exists_cons in Hex as [Hex|Hex]; [|done].
      simpl in Hex. congruence.
    + by rewrite (run_bind_raise _ _ w
                    (fault_exn wording (MissingKey "full_name")) w).
Qed.

(** The comprehension reads and writes no world. *)
Lemma full_names_pure items : ∀ acc, ∃ r,
  ∀ w, full_names wording items acc w = Some (r, w).
Proof.
  induction items as [|[lang details] items IH]; intros acc; simpl.
  - by eexists.
  - unfold getitem. destruct (dict_get details "full_name") as [name|].
    + destruct (IH (dict_set acc lang name)) as (r & Hr).
      exists r. intros w. by rewrite (run_bind_ok _ _ w name w).
    + eexists. intros w.
      by rewrite (run_bind_raise _ _ w
                    (fault_exn wording (MissingKey "full_name")) w).
Qed.

Lemma names_lookup (m : list (string * list (string * string)))
    (names : list (string * string)) lang :
  Forall2 (λ kv kn, kn.1 = kv.1 ∧ dict_get kv.2 "full_name" = Some kn.2)
    m names →
  dict_get names lang = table_field m lang "full_name".
Proof.
  unfold table_field.
  induction 1 as [|[k d] [k' n] m names [Hk Hn] _ IH]; simpl; [done|].
  simpl in Hk, Hn. subst k'.
  by destruct (String.eqb lang k).
Qed.

Lemma names_keys (m : list (string * list (string * string)))
    (names : list (string * string)) :
  Forall2 (λ kv kn, kn.1 = kv.1 ∧ dict_get kv.2 "full_name" = Some kn.2)
    m names →
  dict_keys names = dict_keys m.
Proof.
  induction 1 as [|[k d] [k' n] m names [Hk _] _ IH]; simpl; [done|].
  simpl in Hk. by rewrite Hk, IH.
Qed.

(** A call that returns has put the names at the next free location. *)
Lemma get_supported_languages_inv self w l w' :
  get_supported_languages wording self w = Some (Ok l, w') →
  ∃ m names,
    table_in_store self w m ∧
    (∀ w0, full_names wording m [] w0 = Some (Ok names, w0)) ∧
    l = fresh (dom (store w)) ∧
    w' = set_store (<[l := NameMap names]> (store w)) w.
Proof.
  unfold get_supported_languages, read_LangMap, table_in_store.
  unfold mbind, M_bind, bind.
  destruct (store w !! language_map self) as [[m|?]|]; try discriminate.
  destruct (full_names_pure m []) as (r & Hr). rewrite (Hr w).
  destruct r as [names|e]; [|discriminate].
  unfold alloc. intros [= <- <-]. by exists m, names.
Qed.

End AnyTable.

(** X7. Two calls of [get_supported_languages] in a row never hand out the
    same object: the second returns a location different from the first,
    both objects hold the same names, the first is as it was returned and
    so is the table.  This holds for whatever table the service has. *)
Theorem successive_snapshots wording self w l1 w1 l2 w2 :
  get_supported_languages wording self w = Some (Ok l1, w1) →
  get_supported_languages wording self w1 = Some (Ok l2, w2) →
  l1 ≠ l2 ∧ l1 ≠ language_map self ∧ l2 ≠ language_map self ∧
  store w2 !! language_map self = store w !! language_map self ∧
  ∃ names, store w1 !! l1 = Some (NameMap names) ∧
           store w2 !! l1 = Some (NameMap names) ∧
           store w2 !! l2 = Some (NameMap names).
Proof.
  intros H1 H2.
  apply get_supported_languages_inv in H1 as (m & names & Hm & Hn & -> & ->).
  apply get_supported_languages_inv in H2 as (m' & names' & Hm' & Hn' & -> & ->).
  unfold table_in_store in *. simpl in *.
  set (l1 := fresh (dom (store w))) in *.
  set (l2 := fresh (dom (<[l1 := NameMap names]> (store w)))) in *.
  assert (Hl1 : store w !! l1 = None) by apply fresh_unused.
  assert (Hl2 : <[l1 := NameMap names]> (store w) !! l2 = None)
    by (apply not_elem_of_dom; apply is_fresh).
  assert (Hne1 : l1 ≠ language_map self) by (intros Heq; congruence).
  assert (Hne2 : l2 ≠ language_map self) by (intros Heq; congruence).
  assert (Hne : l1 ≠ l2).
  { intros Heq. rewrite <- Heq in Hl2. by rewrite lookup_insert_eq in Hl2. }
  rewrite lookup_insert_ne in Hm' by done.
  assert (m' = m) as -> by congruence.
  assert (names' = names) as ->.
  { pose proof (Hn w) as E1. pose proof (Hn' w) as E2. congruence. }
  repeat split; try done.
  - by rewrite !lookup_insert_ne.
  - exists names. split; [apply lookup_insert_eq|]. split.
    + rewrite lookup_insert_ne by done. apply lookup_insert_eq.
    + apply lookup_insert_eq.
Qed.

Lemma successive_snapshots_witness :
  ∃ l1 w1 l2 w2,
    get_supported_languages Demo.wording Demo.translation_service Demo.world
      = Some (Ok l1, w1) ∧
    get_supported_languages Demo.wording Demo.translation_service w1
      = Some (Ok l2, w2) ∧
    l1 ≠ l2.
Proof.
  eexists _, _, _, _.
  assert (H1 : get_supported_languages Demo.wording Demo.translation_service
                 Demo.world
               = Some (Ok 2%positive,
                       set_store (<[2%positive := NameMap display_names]>
                                    (store Demo.world)) Demo.world))
    by (vm_compute; reflexivity).
  assert (H2 : get_supported_languages Demo.wording Demo.translation_service
                 (set_store (<[2%positive := NameMap display_names]>
                               (store Demo.world)) Demo.world)
               = Some (Ok 3%positive,
                       set_store (<[3%positive := NameMap display_names]>
                                    (<[2%positive := NameMap display_names]>
                                       (store Demo.world))) Demo.world))
    by (vm_compute; reflexivity).
  split; [exact H1|]. split; [exact H2|].
  exact (proj1 (successive_snapshots Demo.wording Demo.translation_service
                  _ _ _ _ _ H1 H2)).
Defined.

(** X8. [get_supported_languages] over any table whose keys are distinct,
    as a dict's are.  When every entry has a "full_name", the new dict has
    the table's keys in the table's order and gives each key the name of
    its entry.  When some entry has none, the call raises the KeyError of
    that missing key and the store is as before: no object was made. *)
Theorem languages_of_any_table wording self w m :
  table_in_store self w m →
  NoDup (dict_keys m) →
  (Forall (λ kv, is_Some (dict_get kv.2 "full_name")) m →
   ∃ names,
     get_supported_languages wording self w =
       Some (Ok (fresh (dom (store w))),
             set_store (<[fresh (dom (store w)) := NameMap names]> (store w)) w) ∧
     dict_keys names = dict_keys m ∧
     ∀ lang, dict_get names lang = table_field m lang "full_name")
  ∧ (Exists (λ kv, dict_get kv.2 "full_name" = None) m →
     get_supported_languages wording self w =
       Some (Raise (Exn KeyError (wording (MissingKey "full_name"))), w)).
Proof.
  intros Hm Hnd.
  assert (Hread : read_LangMap (language_map self) w = Some (Ok m, w))
    by (unfold read_LangMap; by rewrite Hm).
  split.
  - intros Hall.
    destruct (full_names_ok wording w m [] Hnd Hall) as (names & Hrun & Hrel).
    exists names. split; [|split].
    + unfold get_supported_languages.
      rewrite (run_bind_ok _ _ _ _ _ Hread).
      by rewrite (run_bind_ok _ _ _ _ _ Hrun).
    + by apply names_keys.
    + intros lang. by apply names_lookup.
  - intros Hex. unfold get_supported_languages.
    rewrite (run_bind_ok _ _ _ _ _ Hread).
    by rewrite (run_bind_raise _ _ _ _ _ (full_names_missing wording w m [] Hex)).
Qed.

(** The table with an entry that has no display name. *)
Lemma languages_of_any_table_witness :
  table_in_store Demo.translation_service Partial.world Partial.table ∧
  NoDup (dict_keys Partial.table) ∧
  get_supported_languages Demo.wording Demo.translation_service Partial.world =
    Some (Raise (Exn KeyError "'full_name'"), Partial.world).
Proof.
  assert (Hm : table_in_store Demo.translation_service Partial.world
                 Partial.table) by (vm_compute; reflexivity).
  assert (Hnd : NoDup (dict_keys Partial.table)) by compute_done.
  split; [exact Hm|]. split; [exact Hnd|].
  apply (proj2 (languages_of_any_table Demo.wording Demo.translation_service
                  Partial.world Partial.table Hm Hnd)).
  apply Exists_cons_tl, Exists_cons_hd. reflexivity.
Defined.

(** ** [translate_text], for any table *)

Section AnyTableService.

Variable wording : fault → string.
Variable provider :
  list ProviderRequest → ProviderRequest → Result translate_v3.TranslateTextResponse.
Variable self : TranslationService.
Variable m : list (string * list (string * string)).

Lemma language_field_any w lang field :
  table_in_store self w m →
  language_field wording self lang field w =
  match dict_get m lang with
  | Some details =>
      match dict_get details field with
      | Some v => Some (Ok v, w)
      | None => Some (Raise (fault_exn wording (MissingKey field)), w)
      end
  | None => Some (Raise (fault_exn wording (MissingKey lang)), w)
  end.
Proof.
  intros Hm. unfold language_field.
  rewrite (run_bind_ok _ _ w m w) by (unfold read_LangMap; by rewrite Hm).
  unfold getitem. destruct (dict_get m lang) as [details|]; [|done].
  rewrite (run_bind_ok _ _ w details w) by done.
  by destruct (dict_get details field).
Qed.

(** A lookup fails by a KeyError or not at all. *)
Lemma language_field_any_cases w lang field :
  table_in_store self w m →
  match table_field m lang field with
  | Some v => language_field wording self lang field w = Some (Ok v, w)
  | None => ∃ k, language_field wording self lang field w =
                 Some (Raise (fault_exn wording (MissingKey k)), w)
  end.
Proof.
  intros Hm. rewrite (language_field_any w lang field Hm). unfold table_field.
  destruct (dict_get m lang) as [details|]; [|by eexists].
  destruct (dict_get details field); [done|by eexists].
Qed.

Lemma resolve_codes_any w source_lang target_lang :
  table_in_store self w m →
  try_except
    (source_code ← language_field wording self source_lang "code";
     target_code ← language_field wording self target_lang "code";
     mret (source_code, target_code))
    [ (is_KeyError, λ _, raise (Exn ValueError "Invalid language names")) ] w =
  match table_field m source_lang "code", table_field m target_lang "code" with
  | Some sc, Some tc => Some (Ok (sc, tc), w)
  | _, _ => Some (Raise (Exn ValueError "Invalid language names"), w)
  end.
Proof.
  intros Hm.
  pose proof (language_field_any_cases w source_lang "code" Hm) as Hs.
  pose proof (language_field_any_cases w target_lang "code" Hm) as Ht.
  destruct (table_field m source_lang "code") as [sc|].
  - destruct (table_field m target_lang "code") as [tc|].
    + apply run_try_ok.
      rewrite (run_bind_ok _ _ _ _ _ Hs), (run_bind_ok _ _ _ _ _ Ht). done.
    + destruct Ht as (k & Ht). eapply run_try_caught.
      * rewrite (run_bind_ok _ _ _ _ _ Hs). cbv beta.
        by rewrite (run_bind_raise _ _ _ _ _ Ht).
      * done.
      * done.
  - destruct Hs as (k & Hs).
    transitivity (Some (@Raise (string * string)
                          (Exn ValueError "Invalid language names"), w));
      [|by destruct (table_field m target_lang "code")].
    eapply run_try_caught.
    + by rewrite (run_bind_raise _ _ _ _ _ Hs).
    + done.
    + done.
Qed.

(** What [translate_text] does over the table [m]. *)
Lemma translate_text_any w text source_lang target_lang :
  table_in_store self w m →
  translate_text wording provider self text source_lang target_lang w =
  match table_field m source_lang "code", table_field m target_lang "code" with
  | Some sc, Some tc =>
      let req := provider_request self text sc tc in
      match provider (calls w) req with
      | Ok response =>
          match translate_v3.translations response with
          | first :: _ =>
              match table_field m source_lang "full_name",
                    table_field m target_lang "full_name" with
              | Some sn, Some tn =>
                  Some (Ok (translation_result text
                              (translate_v3.translated_text first) sn tn),
                        log_call req w)
              | _, _ =>
                  Some (Raise (Exn RuntimeError
                          ("Translation error: "
                             +:+ wording (MissingKey "full_name"))),
                        log_call req w)
              end
          | [] =>
              Some (Raise (Exn RuntimeError
                             ("Translation error: " +:+ wording OutOfRange)),
                    log_call req w)
          end
      | Raise e =>
          if is_Exception e
          then Some (Raise (Exn RuntimeError ("Translation error: " +:+ exc_str e)),
                     log_call req w)
          else Some (Raise e, log_call req w)
      end
  | _, _ => Some (Raise (Exn ValueError "Invalid language names"), w)
  end.
Proof.
  intros Hm. unfold translate_text.
  pose proof (resolve_codes_any w source_lang target_lang Hm) as Hc.
  destruct (table_field m source_lang "code") as [sc|] eqn:Hs;
    [destruct (table_field m target_lang "code") as [tc|] eqn:Ht|];
    try (by apply run_bind_raise).
  rewrite (run_bind_ok _ _ _ _ _ Hc). simpl fst; simpl snd.
  fold (provider_request self text sc tc).
  set (req := provider_request self text sc tc).
  assert (Hm' : table_in_store self (log_call req w) m) by done.
  pose proof (language_field_any (log_call req w) source_lang "full_name" Hm')
    as Hsn.
  pose proof (language_field_any (log_call req w) target_lang "full_name" Hm')
    as Htn.
  unfold table_field in *.
  destruct (dict_get m source_lang) as [ds|]; [|discriminate].
  destruct (dict_get m target_lang) as [dt|]; [|discriminate].
  destruct (provider (calls w) req) as [response|e] eqn:Hp.
  - assert (Hcall : client_translate_text provider req w
                    = Some (Ok response, log_call req w))
      by (unfold client_translate_text; by rewrite Hp).
    destruct (translate_v3.translations response) as [|first rest] eqn:Htr.
    + eapply run_try_caught.
      * rewrite (run_bind_ok _ _ _ _ _ Hcall). rewrite Htr.
        by apply run_bind_raise.
      * done.
      * done.
    + destruct (dict_get ds "full_name") as [sn|].
      * destruct (dict_get dt "full_name") as [tn|].
        -- apply run_try_ok.
           rewrite (run_bind_ok _ _ _ _ _ Hcall). rewrite Htr.
           rewrite (run_bind_ok _ _ _ first (log_call req w)) by done.
           rewrite (run_bind_ok _ _ _ _ _ Hsn), (run_bind_ok _ _ _ _ _ Htn).
           done.
        -- eapply run_try_caught.
           ++ rewrite (run_bind_ok _ _ _ _ _ Hcall). rewrite Htr.
              rewrite (run_bind_ok _ _ _ first (log_call req w)) by done.
              rewrite (run_bind_ok _ _ _ _ _ Hsn). cbv beta.
              by rewrite (run_bind_raise _ _ _ _ _ Htn).
           ++ done.
           ++ done.
      * eapply run_try_caught.
        -- rewrite (run_bind_ok _ _ _ _ _ Hcall). rewrite Htr.
           rewrite (run_bind_ok _ _ _ first (log_call req w)) by done.
           by rewrite (run_bind_raise _ _ _ _ _ Hsn).
        -- done.
        -- done.
  - assert (Hcall : client_translate_text provider req w
                    = Some (Raise e, log_call req w))
      by (unfold client_translate_text; by rewrite Hp).
    destruct (is_Exception e) eqn:He.
    + eapply run_try_caught.
      * by apply run_bind_raise.
      * simpl. by rewrite He.
      * done.
    + eapply run_try_uncaught.
      * by apply run_bind_raise.
      * simpl. by rewrite He.
Qed.

End AnyTableService.

(** X9. Whatever table the service has, [translate_text] ends and leaves
    the store as it was, in one of four ways: it returns, after one
    Provider call; it raises the ValueError "Invalid language names" with
    nothing sent, which happens exactly when a key or its "code" is not in
    the table; it raises a RuntimeError "Translation error: ..." after one
    call; or it lets through a Provider signal that is not an Exception.
    No KeyError and no IndexError leaves it. *)
Theorem translate_text_exits wording provider self m w text s t :
  table_in_store self w m →
  ∃ r w',
    translate_text wording provider self text s t w = Some (r, w') ∧
    store w' = store w ∧
    ((r = Raise (Exn ValueError "Invalid language names") ∧ w' = w)
       ↔ (table_field m s "code" = None ∨ table_field m t "code" = None)) ∧
    ((∃ v req, r = Ok v ∧ w' = log_call req w)
     ∨ (r = Raise (Exn ValueError "Invalid language names") ∧ w' = w)
     ∨ (∃ msg req, r = Raise (Exn RuntimeError ("Translation error: " +:+ msg))
                   ∧ w' = log_call req w)
     ∨ (∃ e req, r = Raise e ∧ is_Exception e = false ∧
                 provider (calls w) req = Raise e ∧ w' = log_call req w)).
Proof.
  intros Hm.
  rewrite (translate_text_any wording provider self m w text s t Hm).
  destruct (table_field m s "code") as [sc|].
  2:{ eexists _, w. split; [reflexivity|]. split; [done|]. split.
      - split; [by left|done].
      - by right; left. }
  destruct (table_field m t "code") as [tc|].
  2:{ eexists _, w. split; [reflexivity|]. split; [done|]. split.
      - split; [by right|done].
      - by right; left. }
  cbv zeta. set (req := provider_request self text sc tc).
  assert (Hno : ∀ (r : Result json),
            r ≠ Raise (Exn ValueError "Invalid language names") →
            (r = Raise (Exn ValueError "Invalid language names")
               ∧ log_call req w = w)
            ↔ (Some sc = None ∨ Some tc = None)).
  { intros r Hr. split; [by intros [? _]|by intros [?|?]]. }
  destruct (provider (calls w) req) as [response|e] eqn:Hp.
  - destruct (translate_v3.translations response) as [|first rest].
    + eexists _, _. split; [reflexivity|]. split; [done|].
      split; [by apply Hno|]. right; right; left. by eexists _, req.
    + destruct (table_field m s "full_name") as [sn|];
        [destruct (table_field m t "full_name") as [tn|]|].
      * eexists _, _. split; [reflexivity|]. split; [done|].
        split; [by apply Hno|]. left. by eexists _, req.
      * eexists _, _. split; [reflexivity|]. split; [done|].
        split; [by apply Hno|]. right; right; left. by eexists _, req.
      * eexists _, _. split; [reflexivity|]. split; [done|].
        split; [by apply Hno|]. right; right; left. by eexists _, req.
  - destruct (is_Exception e) eqn:He.
    + eexists _, _. split; [reflexivity|]. split; [done|].
      split; [by apply Hno|]. right; right; left. by eexists _, req.
    + eexists _, _. split; [reflexivity|]. split; [done|]. split.
      * apply Hno. intros [= ->]. discriminate He.
      * do 3 right. by exists e, req.
Qed.

Lemma translate_text_exits_witness :
  table_in_store Demo.translation_service Partial.world Partial.table ∧
  ∃ r w',
    translate_text Demo.wording Demo.upper_stub Demo.translation_service
      (JStr "hello") "english" "klingon" Partial.world = Some (r, w') ∧
    store w' = store Partial.world.
Proof.
  assert (Hm : table_in_store Demo.translation_service Partial.world
                 Partial.table) by (vm_compute; reflexivity).
  split; [exact Hm|].
  destruct (translate_text_exits Demo.wording Demo.upper_stub
              Demo.translation_service Partial.table Partial.world
              (JStr "hello") "english" "klingon" Hm)
    as (r & w' & Hrun & Hst & _).
  exists r, w'. exact (conj Hrun Hst).
Defined.

(** X10. The display names are looked up after the Provider has answered.
    With a table whose entry has a "code" and no "full_name", a request for
    that language is sent to the Provider, and only then does
    [translate_text] fail, with the RuntimeError that wraps the KeyError of
    the missing key. *)
Theorem name_missing_after_call wording provider self m w text s t
    sc tc response first rest :
  table_in_store self w m →
  table_field m s "code" = Some sc →
  table_field m t "code" = Some tc →
  table_field m s "full_name" = None ∨ table_field m t "full_name" = None →
  provider (calls w) (provider_request self text sc tc) = Ok response →
  translate_v3.translations response = first :: rest →
  translate_text wording provider self text s t w =
    Some (Raise (Exn RuntimeError
                   ("Translation error: " +:+ wording (MissingKey "full_name"))),
          log_call (provider_request self text sc tc) w).
Proof.
  intros Hm Hs Ht Hname Hp Htr.
  rewrite (translate_text_any wording provider self m w text s t Hm).
  rewrite Hs, Ht. cbv zeta. rewrite Hp, Htr.
  destruct Hname as [-> | ->]; [done|].
  by destruct (table_field m s "full_name").
Qed.

Lemma name_missing_after_call_witness :
  table_in_store Demo.translation_service Partial.world Partial.table ∧
  (table_field Partial.table "english" "full_name" = None
   ∨ table_field Partial.table "fante" "full_name" = None) ∧
  translate_text Demo.wording Demo.upper_stub Demo.translation_service
    (JStr "hello") "english" "fante" Partial.world =
  Some (Raise (Exn RuntimeError "Translation error: 'full_name'"),
        log_call (provider_request Demo.translation_service (JStr "hello")
                    "en-GB" "fat") Partial.world).
Proof.
  assert (Hm : table_in_store Demo.translation_service Partial.world
                 Partial.table) by (vm_compute; reflexivity).
  split; [exact Hm|]. split; [right; reflexivity|].
  exact (name_missing_after_call Demo.wording Demo.upper_stub
           Demo.translation_service Partial.table Partial.world
           (JStr "hello") "english" "fante" "en-GB" "fat"
           {| translate_v3.translations :=
                [ {| translate_v3.translated_text := "HELLO" |} ] |}
           {| translate_v3.translated_text := "HELLO" |} []
           Hm eq_refl eq_refl (or_intror eq_refl) eq_refl eq_refl).
Defined.

(** ** Sequences of requests *)

Lemma count_posts_post data reqs :
  count_posts (PostTranslate data :: reqs) = S (count_posts reqs).
Proof. unfold count_posts. by rewrite filter_cons_True. Qed.

Lemma count_posts_get reqs :
  count_posts (GetLanguages :: reqs) = count_posts reqs.
Proof. unfold count_posts. by rewrite filter_cons_False. Qed.

Lemma replicate_shift {A} n (x : A) l :
  replicate n x ++ x :: l = x :: replicate n x ++ l.
Proof. induction n as [|n IH]; simpl; [done|]. by rewrite IH. Qed.

Section Sequences.

Variable lower : string → string.
Variable wording : fault → string.
Variable provider :
  list ProviderRequest → ProviderRequest → Result translate_v3.TranslateTextResponse.
Variable self : TranslationService.

Lemma run_cons r rest w o w1 outs w' :
  serve lower wording provider self r w = Some (o, w1) →
  run lower wording provider self rest w1 = Some (outs, w') →
  run lower wording provider self (r :: rest) w = Some (o :: outs, w').
Proof. intros H1 H2. simpl. by rewrite H1, H2. Qed.

(** A body with the three keys and two known languages: the outcome is
    decided by the Provider's answer to the one request. *)
Lemma translate_resolved_same d text source_lang target_lang sc sn tc tn w1 w2 :
  registry_ok self w1 → registry_ok self w2 →
  request_body d text source_lang target_lang →
  resolve (lower source_lang) = Some (sc, sn) →
  resolve (lower target_lang) = Some (tc, tn) →
  provider (calls w1) (provider_request self text sc tc)
    = provider (calls w2) (provider_request self text sc tc) →
  ∃ o,
    translate lower wording provider self (JObj d) w1
      = Some (o, log_call (provider_request self text sc tc) w1) ∧
    translate lower wording provider self (JObj d) w2
      = Some (o, log_call (provider_request self text sc tc) w2).
Proof.
  intros Hok1 Hok2 Hb Hs Ht Hp.
  rewrite (translate_run lower wording provider self d text _ _ w1 Hok1 Hb).
  rewrite (translate_run lower wording provider self d text _ _ w2 Hok2 Hb).
  rewrite Hs, Ht. cbv zeta. rewrite Hp.
  destruct (provider (calls w2) (provider_request self text sc tc))
    as [response|e].
  - destruct (translate_v3.translations response); by eexists.
  - destruct (is_Exception e); by eexists.
Qed.

End Sequences.

(** X11. Over any sequence of requests the server answers each request,
    keeps every call already in the log, and adds at most one call per
    POST /translate and none per GET /languages. *)
Theorem request_sequence_calls lower wording provider self reqs : ∀ w,
  registry_ok self w →
  ∃ outs w' new,
    run lower wording provider self reqs w = Some (outs, w') ∧
    length outs = length reqs ∧
    calls w' = new ++ calls w ∧
    (length new ≤ count_posts reqs)%nat.
Proof.
  induction reqs as [|r reqs IH]; intros w Hok.
  - exists [], w, []. repeat split; simpl; lia.
  - destruct r as [data|]; simpl.
    + destruct (translate_effect lower wording provider self data w Hok)
        as (o & w1 & Hrun & Hst & Hcalls).
      assert (Hok1 : registry_ok self w1)
        by (unfold registry_ok; by rewrite Hst).
      destruct (IH w1 Hok1) as (outs & w' & new & Hrest & Hlen & Hnew & Hle).
      rewrite Hrun, Hrest. rewrite count_posts_post.
      destruct Hcalls as [Hc | [req Hc]].
      * exists (o :: outs), w', new. rewrite Hnew, Hc.
        repeat split; simpl; lia.
      * exists (o :: outs), w', (new ++ [req]). rewrite Hnew, Hc.
        repeat split; simpl; [lia|by rewrite <- app_assoc|].
        rewrite length_app. simpl. lia.
    + rewrite (supported_languages_run wording self w Hok).
      set (w1 := set_store _ w).
      assert (Hok1 : registry_ok self w1)
        by (apply registry_ok_insert_fresh; [done|apply fresh_unused]).
      destruct (IH w1 Hok1) as (outs & w' & new & Hrest & Hlen & Hnew & Hle).
      rewrite Hrest. rewrite count_posts_get.
      exists (Ok languages_response :: outs), w', new.
      repeat split; simpl; [lia|done|lia].
Qed.

Lemma request_sequence_calls_witness :
  registry_ok Demo.translation_service Demo.world ∧
  ∃ outs w' new,
    run ascii_lower Demo.wording Demo.upper_stub Demo.translation_service
      [GetLanguages; PostTranslate Demo.hello; PostTranslate JNull] Demo.world
      = Some (outs, w') ∧
    length outs = 3 ∧
    calls w' = new ++ calls Demo.world ∧
    (length new ≤ 2)%nat.
Proof.
  split; [exact demo_registry_ok|].
  exact (request_sequence_calls ascii_lower Demo.wording Demo.upper_stub
           Demo.translation_service
           [GetLanguages; PostTranslate Demo.hello; PostTranslate JNull]
           Demo.world demo_registry_ok).
Defined.

(** X12. Nothing is cached: the same body with the three keys and two
    known languages, posted [n] times in a row, is sent to the Provider [n]
    times with the same request, and the store is as before.  When the
    Provider answers that request the same way whatever came before, the
    [n] outcomes are one and the same. *)
Theorem repeated_request_not_cached lower wording provider self
    d text source_lang target_lang sc sn tc tn n : ∀ w,
  registry_ok self w →
  request_body d text source_lang target_lang →
  resolve (lower source_lang) = Some (sc, sn) →
  resolve (lower target_lang) = Some (tc, tn) →
  ∃ outs w',
    run lower wording provider self (replicate n (PostTranslate (JObj d))) w
      = Some (outs, w') ∧
    length outs = n ∧
    calls w' = replicate n (provider_request self text sc tc) ++ calls w ∧
    store w' = store w ∧
    ((∀ h h' r, provider h r = provider h' r) →
     ∀ o w1, translate lower wording provider self (JObj d) w = Some (o, w1) →
             outs = replicate n o).
Proof.
  induction n as [|n IH]; intros w Hok Hb Hs Ht.
  - exists [], w. by repeat split.
  - set (req := provider_request self text sc tc).
    destruct (translate_resolved_same lower wording provider self
                d text _ _ sc sn tc tn w w Hok Hok Hb Hs Ht eq_refl)
      as (o & Hrun & _).
    assert (Hok1 : registry_ok self (log_call req w)) by done.
    destruct (IH (log_call req w) Hok1 Hb Hs Ht)
      as (outs & w' & Hrest & Hlen & Hcalls & Hst & Hsame).
    exists (o :: outs), w'.
    split; [exact (run_cons lower wording provider self
                     (PostTranslate (JObj d)) _ w o _ outs w' Hrun Hrest)|].
    split; [simpl; by rewrite Hlen|]. split.
    { rewrite Hcalls. simpl. apply replicate_shift. }
    split; [done|].
    intros Hind o0 w1 Hrun0. rewrite Hrun in Hrun0.
    injection Hrun0 as <- _. simpl. f_equal.
    destruct (translate_resolved_same lower wording provider self
                d text _ _ sc sn tc tn w (log_call req w) Hok Hok1 Hb Hs Ht
                (Hind _ _ _))
      as (o' & Hrun' & Hrun1).
    fold req in Hrun', Hrun1. rewrite Hrun in Hrun'. injection Hrun' as <-.
    exact (Hsame Hind o _ Hrun1).
Qed.

Lemma repeated_request_not_cached_witness :
  registry_ok Demo.translation_service Demo.world ∧
  request_body Demo.hello_fields (JStr "hello") "english" "twi" ∧
  ∃ outs w',
    run ascii_lower Demo.wording Demo.upper_stub Demo.translation_service
      [PostTranslate Demo.hello; PostTranslate Demo.hello] Demo.world
      = Some (outs, w') ∧
    calls w' =
      [ provider_request Demo.translation_service (JStr "hello") "en-GB" "ak";
        provider_request Demo.translation_service (JStr "hello") "en-GB" "ak" ].
Proof.
  assert (Hb : request_body Demo.hello_fields (JStr "hello") "english" "twi")
    by (repeat split; reflexivity).
  split; [exact demo_registry_ok|]. split; [exact Hb|].
  destruct (repeated_request_not_cached ascii_lower Demo.wording
              Demo.upper_stub Demo.translation_service Demo.hello_fields
              (JStr "hello") "english" "twi" "en-GB" "English" "ak"
              "Twi (Akan)" 2 Demo.world demo_registry_ok Hb eq_refl eq_refl)
    as (outs & w' & Hrun & _ & Hcalls & _).
  exists outs, w'. exact (conj Hrun Hcalls).
Defined.

(** X13. POST /translate reads the three keys and nothing else of an
    object: two bodies that agree on text, source_lang and target_lang get
    the same outcome in the same world, whatever further fields they carry
    and in whatever order the fields come. *)
Theorem other_fields_ignored lower wording provider self w d d' :
  dict_get d "text" = dict_get d' "text" →
  dict_get d "source_lang" = dict_get d' "source_lang" →
  dict_get d "target_lang" = dict_get d' "target_lang" →
  translate lower wording provider self (JObj d) w =
  translate lower wording provider self (JObj d') w.
Proof.
  intros H1 H2 H3. unfold translate.
  rewrite (run_bind_ok _ _ _ _ _ (all_in_dict wording d w)).
  rewrite (run_bind_ok _ _ _ _ _ (all_in_dict wording d' w)).
  unfold dict_has, subscript, getitem. by rewrite H1, H2, H3.
Qed.

Lemma other_fields_ignored_witness :
  dict_get Demo.hello_fields "text"
    = dict_get [ ("target_lang", JStr "twi"); ("debug", JBool true);
                 ("source_lang", JStr "english"); ("text", JStr "hello") ]
        "text" ∧
  translate ascii_lower Demo.wording Demo.upper_stub Demo.translation_service
    (JObj Demo.hello_fields) Demo.world =
  translate ascii_lower Demo.wording Demo.upper_stub Demo.translation_service
    (JObj [ ("target_lang", JStr "twi"); ("debug", JBool true);
            ("source_lang", JStr "english"); ("text", JStr "hello") ])
    Demo.world.
Proof.
  split; [reflexivity|].
  exact (other_fields_ignored ascii_lower Demo.wording Demo.upper_stub
           Demo.translation_service Demo.world Demo.hello_fields
           [ ("target_lang", JStr "twi"); ("debug", JBool true);
             ("source_lang", JStr "english"); ("text", JStr "hello") ]
           eq_refl eq_refl eq_refl).
Defined.
